(** * SolarTracer: register decoding and polling client

    A shallow embedding of [SolarTracer.py] (the Modbus-RTU client of an
    EPEver/Tracer solar charge controller) together with the properties
    that its specification states about it.

    Conventions of the embedding:
    - Python [int] is [Z]; the bit operators [&] and [>>] are [Z.land] and
      [Z.shiftr] (both agree with Python on negative numbers too);
    - Python [float] is an IEEE-754 binary64 value, represented by
      [spec_float] and computed with the executable operations of
      [SpecFloat] at precision 53 and maximal exponent 1024;
    - a raised exception is the [Raise] outcome of [result];
    - a [dict] with string keys is a [gmap string _]; the two status
      decoders return dict literals with a fixed key set, embedded as
      records whose fields carry the keys' names;
    - the serial instrument is a [bus]: the replies the device is going to
      give and the requests put on the wire so far. *)

From Stdlib Require Import ZArith Lia.
From Stdlib Require Import Floats.SpecFloat.
From stdpp Require Import base option list strings gmap.

Local Open Scope Z_scope.

(** ** Python values and exceptions *)

Module Py.

Inductive exn : Set :=
| IOError
| IndexError
| OverflowError
| ValueError
| ZeroDivisionError.

Inductive result (A : Type) : Type :=
| Ok (a : A)
| Raise (e : exn).
Arguments Ok {A} a.
Arguments Raise {A} e.

Definition bind {A B} (m : result A) (k : A -> result B) : result B :=
  match m with
  | Ok a => k a
  | Raise e => Raise e
  end.

(** [bool(n)] for an integer [n]. *)
Definition bool_of_int (n : Z) : bool := negb (n =? 0).

(** [l[i]]: negative indices count from the end, anything outside the
    list raises [IndexError]. *)
Definition getitem {A} (l : list A) (i : Z) : result A :=
  let j := if i <? 0 then i + Z.of_nat (length l) else i in
  if j <? 0 then Raise IndexError
  else match l !! Z.to_nat j with
       | Some x => Ok x
       | None => Raise IndexError
       end.

(** [l[i] = x] on a list. *)
Definition setitem {A} (l : list A) (i : Z) (x : A) : result (list A) :=
  let j := if i <? 0 then i + Z.of_nat (length l) else i in
  if (0 <=? j) && (j <? Z.of_nat (length l))
  then Ok (<[Z.to_nat j := x]> l)
  else Raise IndexError.

(** *** binary64 *)

Definition prec : Z := 53.
Definition emax : Z := 1024.

(** The correctly rounded double of the integer [n] (round to nearest,
    ties to even; an infinity when [n] is out of range). *)
Definition Z2SF (n : Z) : spec_float := binary_normalize prec emax n 0 false.

(** [float(n)], the conversion Python applies to the integer operand of a
    mixed [int]/[float] operation. *)
Definition float_of_int (n : Z) : result spec_float :=
  match Z2SF n with
  | S754_infinity _ => Raise OverflowError
  | f => Ok f
  end.

Definition is_zero (f : spec_float) : bool :=
  match f with S754_zero _ => true | _ => false end.

(** [x / y] on floats. *)
Definition float_truediv (x y : spec_float) : result spec_float :=
  if is_zero y then Raise ZeroDivisionError else Ok (SFdiv prec emax x y).

(** [n / y] with [n] an integer and [y] a float. *)
Definition int_truediv_float (n : Z) (y : spec_float) : result spec_float :=
  bind (float_of_int n) (fun x => float_truediv x y).

(** [n * y] with [n] an integer and [y] a float. *)
Definition int_mul_float (n : Z) (y : spec_float) : result spec_float :=
  bind (float_of_int n) (fun x => Ok (SFmul prec emax x y)).

(** [a / b] on two integers: the correctly rounded quotient, computed
    from the integers themselves (CPython's [long_true_divide]). *)
Definition int_truediv (a b : Z) : result spec_float :=
  if b =? 0 then Raise ZeroDivisionError
  else if a =? 0 then Ok (S754_zero (b <? 0))
  else
    let '(q, e, l) := SFdiv_core_binary prec emax (Z.abs a) 0 (Z.abs b) 0 in
    match binary_round_aux prec emax (xorb (a <? 0) (b <? 0)) q e l with
    | S754_infinity _ => Raise OverflowError
    | f => Ok f
    end.

(** The integer part of a finite float, towards zero. *)
Definition trunc (s : bool) (m : positive) (e : Z) : Z :=
  let a := match e with
           | Z0 => Zpos m
           | Zpos _ => Z.shiftl (Zpos m) e
           | Zneg p => Z.shiftr (Zpos m) (Zpos p)
           end in
  if s then - a else a.

(** [int(x)] on a float. *)
Definition int_of_float (x : spec_float) : result Z :=
  match x with
  | S754_zero _ => Ok 0
  | S754_finite s m e => Ok (trunc s m e)
  | S754_infinity _ => Raise OverflowError
  | S754_nan => Raise ValueError
  end.

(** The float literals of the source. *)
Definition f100 : spec_float := S754_finite false 7036874417766400 (-46).

(** Python's numbers, where a function returns either kind. *)
Inductive number : Type :=
| Int (n : Z)
| Float (f : spec_float).

(** [x == y] on numbers whose integer side is exactly representable. *)
Definition number_eqb (x y : number) : bool :=
  match x, y with
  | Int a, Int b => a =? b
  | Int a, Float f => SFeqb (Z2SF a) f
  | Float f, Int b => SFeqb f (Z2SF b)
  | Float f, Float g => SFeqb f g
  end.

End Py.

Import Py.

Declare Scope py_scope.
Delimit Scope py_scope with py.
Notation "'let!' x ':=' m 'in' k" := (Py.bind m (fun x => k))
  (at level 10, x name, m at level 100, k at level 200) : py_scope.

(** ** The status decoders *)

(** The dict returned by [decodeBatteryStatus]. *)
Record BatteryStatus : Type := {
  voltage_status : string;
  temperature_status : string;
  internal_resistance_abnormal : bool;
  wrong_voltage_identification : bool
}.

(** The dict returned by [decodeChargingStatus]. *)
Record ChargingStatus : Type := {
  input_voltage_status : string;
  charging_mosfet_short : bool;
  charging_anti_reverse_short : bool;
  anti_reverse_short : bool;
  input_over_current : bool;
  load_over_current : bool;
  load_short : bool;
  load_mosfet_short : bool;
  pv_input_short : bool;
  charging_status : string;
  fault : bool;
  running : bool
}.

Definition VOLTAGE_STATUS : list string :=
  ["Normal"; "Overvolt"; "Under Volt"; "Low Volt Disconnect"; "Fault"]%string.

Definition TEMPERATURE_STATUS : list string :=
  ["Normal"; "Over Temp"; "Low Temp"]%string.

Definition INPUT_VOLTAGE_STATUS : list string :=
  ["Normal"; "No power"; "Higher volt input"; "Input volt error"]%string.

Definition CHARGING_STATUS : list string :=
  ["No charging"; "Float"; "Boost"; "Equalization"]%string.

Definition decodeBatteryStatus (status_value : Z) : result BatteryStatus :=
  (let! vs := getitem VOLTAGE_STATUS (Z.land status_value 0x0F) in
   let! ts := getitem TEMPERATURE_STATUS
           (Z.land (Z.shiftr status_value 4) 0x0F mod 3) in
   Ok {| voltage_status := vs;
         temperature_status := ts;
         internal_resistance_abnormal :=
           bool_of_int (Z.land status_value 0x0100);
         wrong_voltage_identification :=
           bool_of_int (Z.land status_value 0x8000) |})%py.

Definition decodeChargingStatus (status_value : Z) : result ChargingStatus :=
  (let! ivs := getitem INPUT_VOLTAGE_STATUS
            (Z.land (Z.shiftr status_value 14) 0x03) in
   let! cs := getitem CHARGING_STATUS (Z.land (Z.shiftr status_value 2) 0x03) in
   Ok {| input_voltage_status := ivs;
         charging_mosfet_short := bool_of_int (Z.land status_value 0x2000);
         charging_anti_reverse_short :=
           bool_of_int (Z.land status_value 0x1000);
         anti_reverse_short := bool_of_int (Z.land status_value 0x0800);
         input_over_current := bool_of_int (Z.land status_value 0x0400);
         load_over_current := bool_of_int (Z.land status_value 0x0200);
         load_short := bool_of_int (Z.land status_value 0x0100);
         load_mosfet_short := bool_of_int (Z.land status_value 0x0080);
         pv_input_short := bool_of_int (Z.land status_value 0x0010);
         charging_status := cs;
         fault := bool_of_int (Z.land status_value 0x0002);
         running := bool_of_int (Z.land status_value 0x0001) |})%py.

(** ** 32-bit composition *)

Definition combine32BitValue (low_reg high_reg : Z) : result spec_float :=
  int_truediv_float (high_reg * 65536 + low_reg) f100.

(** ** The serial instrument *)

(** What [minimalmodbus.Instrument] is asked to do. *)
Inductive request : Type :=
| ReadRegister (address : Z) (decimals : nat) (functioncode : Z)
| ReadRegisters (address : Z) (count : nat) (functioncode : Z)
| WriteBit (address : Z) (value : bool)
| WriteRegisters (address : Z) (values : list Z).

(** What comes back from the device: register words, the
    acknowledgement of a write, or a failed transaction. *)
Inductive reply : Type :=
| Words (ws : list Z)
| Ack
| Fault (e : exn).

(** The link to the device: the replies still to come, in order, and the
    requests sent so far. A device that has nothing left to say times out. *)
Record bus : Type := { replies : list reply; sent : list request }.

Definition M (A : Type) : Type := bus -> result A * bus.

Definition ret {A} (a : A) : M A := fun b => (Ok a, b).

Definition raise {A} (e : exn) : M A := fun b => (Raise e, b).

Definition bindM {A B} (m : M A) (k : A -> M B) : M B :=
  fun b => match m b with
           | (Ok a, b') => k a b'
           | (Raise e, b') => (Raise e, b')
           end.

(** [try: m except ...: h]; the handler decides which exceptions it takes
    and re-raises the others. *)
Definition try_except {A} (m : M A) (h : exn -> M A) : M A :=
  fun b => match m b with
           | (Ok a, b') => (Ok a, b')
           | (Raise e, b') => h e b'
           end.

(** A computation that does not touch the instrument. *)
Definition lift {A} (r : result A) : M A := fun b => (r, b).

Notation "'do!' x ':=' m 'in' k" := (bindM m (fun x => k))
  (at level 10, x name, m at level 100, k at level 200) : py_scope.

(** One round trip. *)
Definition transact (rq : request) : M reply :=
  fun b =>
    let b' rs := {| replies := rs; sent := sent b ++ [rq] |} in
    match replies b with
    | [] => (Raise IOError, b' [])
    | Fault e :: rs => (Raise e, b' rs)
    | r :: rs => (Ok r, b' rs)
    end.

(** Modelled from the spec: the block read of [minimalmodbus]
    ([read_registers]), a single transaction that reads exactly [count]
    contiguous words; a reply of another shape is a failed transaction. *)
Definition read_registers (address : Z) (count : nat) (functioncode : Z)
  : M (list Z) :=
  (do! r := transact (ReadRegisters address count functioncode) in
   match r with
   | Words ws => if decide (length ws = count) then ret ws else raise IOError
   | _ => raise IOError
   end)%py.

(** The scaling of a raw register word by [decimals] decimal places. *)
Definition scaled (raw : Z) (decimals : nat) : number :=
  match decimals with
  | O => Int raw
  | _ => Float (SFdiv prec emax (Z2SF raw) (Z2SF (10 ^ Z.of_nat decimals)))
  end.

(** What the library takes for a register address and for the content of
    a register: an integer of 16 bits, 0 to 65535. *)
Definition valid_address (address : Z) : bool :=
  (0 <=? address) && (address <=? 65535).

Definition valid_word (value : Z) : bool :=
  (0 <=? value) && (value <=? 65535).

(** The arguments [read_register] accepts: a 16-bit address, at most ten
    decimals, and function code 3 or 4. *)
Definition accepts_read (address : Z) (decimals : nat) (functioncode : Z)
  : bool :=
  valid_address address && (decimals <=? 10)%nat
  && ((functioncode =? 3) || (functioncode =? 4)).

(** Modelled from the spec: the single-register read of [minimalmodbus]
    ([read_register]), which applies the divide-by-10^decimals scaling to
    the word read. Arguments it does not accept are refused with
    [ValueError] before anything goes on the wire. *)
Definition read_register (address : Z) (decimals : nat) (functioncode : Z)
  : M number :=
  if accepts_read address decimals functioncode then
    (do! r := transact (ReadRegister address decimals functioncode) in
     match r with
     | Words [raw] => ret (scaled raw decimals)
     | _ => raise IOError
     end)%py
  else raise ValueError.

(** Modelled from the spec: the coil write of [minimalmodbus]
    ([write_bit]). *)
Definition write_bit (address : Z) (value : bool) : M unit :=
  (do! r := transact (WriteBit address value) in
   match r with
   | Ack => ret tt
   | _ => raise IOError
   end)%py.

(** The arguments [write_registers] accepts: a 16-bit address and a list
    of 1 to 123 values, each of which fits a register. *)
Definition accepts_write (address : Z) (values : list Z) : bool :=
  valid_address address
  && (1 <=? length values)%nat && (length values <=? 123)%nat
  && forallb valid_word values.

(** Modelled from the spec: the block write of [minimalmodbus]
    ([write_registers]), one transaction for the whole sequence. Arguments
    it does not accept (a value that does not fit a 16-bit register among
    them) are refused with [ValueError] before anything goes on the
    wire. *)
Definition write_registers (address : Z) (values : list Z) : M unit :=
  if accepts_write address values then
    (do! r := transact (WriteRegisters address values) in
     match r with
     | Ack => ret tt
     | _ => raise IOError
     end)%py
  else raise ValueError.

(** ** Register and coil access *)

Definition readReg (register : Z) (decimals : nat) (function_code : Z)
  : M number :=
  try_except
    (read_register register decimals function_code)
    (fun e => match e with
              | IOError => ret (Int (-1))
              | _ => raise e
              end).

Definition writeCoil (address : Z) (value : bool) : M bool :=
  try_except
    (do! _u := write_bit address value in ret true)%py
    (fun e => match e with
              | IOError => ret false
              | _ => raise e
              end).

(** ** Snapshots *)

(** A reading: field name to decoded value. *)
Abbreviation reading := (gmap string spec_float).

(** [regs[i] / 100.0] *)
Definition centi (regs : list Z) (i : Z) : result spec_float :=
  (let! r := getitem regs i in int_truediv_float r f100)%py.

(** [self.combine32BitValue(regs[i], regs[j])] *)
Definition pair32 (regs : list Z) (i j : Z) : result spec_float :=
  (let! lo := getitem regs i in
   let! hi := getitem regs j in
   combine32BitValue lo hi)%py.

Definition rated_of_regs (regs : list Z) : result reading :=
  (let! v0 := centi regs 0 in
   let! v1 := centi regs 1 in
   let! v2 := pair32 regs 2 3 in
   let! v3 := centi regs 4 in
   Ok (list_to_map
         [("pv_rated_voltage", v0); ("pv_rated_current", v1);
          ("pv_rated_power", v2); ("battery_rated_voltage", v3)]%string))%py.

Definition readRatedData : M (option reading) :=
  try_except
    (do! regs := read_registers 0x3000 5 4 in
     do! rated_data := lift (rated_of_regs regs) in
     ret (Some rated_data))%py
    (fun e => match e with
              | IOError => ret None
              | _ => ret None
              end).

Definition current_of_regs (regs : list Z) : result reading :=
  (let! v0 := centi regs 0 in
   let! v1 := centi regs 1 in
   let! v2 := pair32 regs 2 3 in
   let! v3 := centi regs 4 in
   let! v4 := centi regs 5 in
   let! v5 := pair32 regs 6 7 in
   let! v6 := centi regs 12 in
   let! v7 := centi regs 13 in
   let! v8 := pair32 regs 14 15 in
   let! v9 := centi regs 16 in
   let! v10 := centi regs 17 in
   let! v11 := centi regs 18 in
   let! v12 := centi regs 19 in
   Ok (list_to_map
         [("PVvolt", v0); ("PVamps", v1); ("PVwatt", v2);
          ("BAvolt", v3); ("BAamps", v4); ("BAwatt", v5);
          ("DCvolt", v6); ("DCamps", v7); ("DCwatt", v8);
          ("BAtemp", v9); ("CTtemp", v10);
          ("power_components_temp", v11); ("BAperc", v12)]%string))%py.

Definition readCurrent : M (option reading) :=
  try_except
    (do! regs := read_registers 0x3100 20 4 in
     do! tracer_current := lift (current_of_regs regs) in
     ret (Some tracer_current))%py
    (fun e => match e with
              | IOError => ret None
              | _ => ret None
              end).

Definition stats_of_regs (regs : list Z) : result reading :=
  (let! v0 := centi regs 0 in
   let! v1 := centi regs 1 in
   let! v2 := centi regs 2 in
   let! v3 := centi regs 3 in
   let! v4 := pair32 regs 4 5 in
   let! v5 := pair32 regs 6 7 in
   let! v6 := pair32 regs 8 9 in
   let! v7 := pair32 regs 10 11 in
   let! v8 := pair32 regs 12 13 in
   let! v9 := pair32 regs 14 15 in
   let! v10 := pair32 regs 16 17 in
   let! v11 := pair32 regs 18 19 in
   Ok (list_to_map
         [("max_pv_voltage_today", v0); ("min_pv_voltage_today", v1);
          ("max_battery_voltage_today", v2);
          ("min_battery_voltage_today", v3);
          ("consumed_energy_today", v4); ("consumed_energy_month", v5);
          ("consumed_energy_year", v6); ("total_consumed_energy", v7);
          ("generated_energy_today", v8); ("generated_energy_month", v9);
          ("generated_energy_year", v10);
          ("total_generated_energy", v11)]%string))%py.

Definition readStats : M (option reading) :=
  try_except
    (do! regs := read_registers 0x3300 20 4 in
     do! tracer_stats := lift (stats_of_regs regs) in
     ret (Some tracer_stats))%py
    (fun e => match e with
              | IOError => ret None
              | _ => ret None
              end).

(** The two banks this device does not serve: nothing is sent, an empty
    dict comes back. *)
Definition readAllSettings : M (option reading) := ret (Some ∅).

Definition readSystemStatus : M (option reading) := ret (Some ∅).

(** [not x] on what a snapshot method returned, the test its callers
    apply: [None] and the empty dict are both falsy. *)
Definition falsy (x : option reading) : bool :=
  match x with
  | None => true
  | Some d => bool_decide (d = ∅)
  end.

(** ** Writers *)

(** [int(x * volt_adjust)], and one round of the scaling loop:
    [new_settings[idx] = int(new_settings[idx] * volt_adjust)]. *)
Definition scaled_setting (x : Z) (volt_adjust : spec_float) : result Z :=
  (let! p := int_mul_float x volt_adjust in int_of_float p)%py.

Definition scale_at (volt_adjust : spec_float) (new_settings : list Z)
  (idx : Z) : result (list Z) :=
  (let! x := getitem new_settings idx in
   let! y := scaled_setting x volt_adjust in
   setitem new_settings idx y)%py.

(** [for idx in range(3, len(new_settings))] *)
Definition scale_loop (volt_adjust : spec_float) (new_settings : list Z)
  : result (list Z) :=
  foldl (fun acc idx => let! l := acc in scale_at volt_adjust l idx)%py
        (Ok new_settings)
        (Z.of_nat <$> seq 3 (length new_settings - 3)).

(** The sequence [setBatterySettings] hands to the block write. *)
Definition adjusted_settings (settings_list : list Z)
  (battery_capacity battery_voltage : Z) : result (list Z) :=
  (let! new_settings :=
     if battery_capacity =? 100 then Ok settings_list
     else setitem settings_list 1 battery_capacity in
   if 12 <? battery_voltage then
     let! volt_adjust := int_truediv battery_voltage 12 in
     scale_loop volt_adjust new_settings
   else Ok new_settings)%py.

Definition setBatterySettings (settings_list : list Z)
  (battery_capacity battery_voltage : Z) : M Z :=
  (do! new_settings :=
     lift (adjusted_settings settings_list battery_capacity battery_voltage) in
   try_except
     (do! _u := write_registers 0x9000 new_settings in ret 0)
     (fun e => match e with
               | IOError => ret (-2)
               | _ => raise e
               end))%py.

Definition setLoadControl (manual_on test_mode force_on : bool) : M bool :=
  (let success := true in
   do! w1 := writeCoil 0x0002 manual_on in
   let success := success && w1 in
   do! w2 := writeCoil 0x0005 test_mode in
   let success := success && w2 in
   do! w3 := writeCoil 0x0006 force_on in
   let success := success && w3 in
   ret success)%py.

(** ** Constants and vocabulary of the statements *)

Definition BATTERY_LEAD_ACID : list Z :=
  [0; 300; 300; 1620; 1500; 1500; 1460; 1440; 1380; 1630; 1260; 1220; 1200;
   1110; 1060].

(** The fields of the three readings, as their dict literals name them. *)
Definition RATED_KEYS : gset string :=
  list_to_set ["pv_rated_voltage"; "pv_rated_current"; "pv_rated_power";
               "battery_rated_voltage"]%string.

Definition CURRENT_KEYS : gset string :=
  list_to_set ["PVvolt"; "PVamps"; "PVwatt"; "BAvolt"; "BAamps"; "BAwatt";
               "DCvolt"; "DCamps"; "DCwatt"; "BAtemp"; "CTtemp";
               "power_components_temp"; "BAperc"]%string.

Definition STATS_KEYS : gset string :=
  list_to_set ["max_pv_voltage_today"; "min_pv_voltage_today";
               "max_battery_voltage_today"; "min_battery_voltage_today";
               "consumed_energy_today"; "consumed_energy_month";
               "consumed_energy_year"; "total_consumed_energy";
               "generated_energy_today"; "generated_energy_month";
               "generated_energy_year"; "total_generated_energy"]%string.

(** The shape the three snapshot methods share: one block read, the
    decoding of the words, and a handler that turns any exception into
    [None]. *)
Definition snapshot (address : Z) (count : nat)
  (decode : list Z -> result reading) : M (option reading) :=
  try_except
    (do! regs := read_registers address count 4 in
     do! d := lift (decode regs) in
     ret (Some d))%py
    (fun e => match e with
              | IOError => ret None
              | _ => ret None
              end).

(** How the device answers a write: it acknowledges, or the transaction
    fails on the wire. *)
Definition write_outcome (ok : bool) : reply :=
  if ok then Ack else Fault IOError.

(** ** Reading floats back *)

(** [denotes f num den]: the finite double [f] is a valid binary64 number
    and the closest one to the fraction [num / den] (within half a unit in
    its last place), which makes it the value of the decimal literal
    written [num / den]. *)
Definition denotes (f : spec_float) (num den : Z) : Prop :=
  match f with
  | S754_finite false m e =>
      bounded prec emax m e = true /\ e <= 0 /\
      2 * Z.abs (den * Z.pos m - num * 2 ^ (- e)) <= den
  | _ => False
  end.

(** [0.0 <= f] *)
Definition nonnegative (f : spec_float) : bool := SFleb (S754_zero false) f.

(** [exact_int f n]: the float [f] is the integer [n], nothing lost. *)
Definition exact_int (f : spec_float) (n : Z) : Prop :=
  match f with
  | S754_zero _ => n = 0
  | S754_finite s m e =>
      e <= 0 /\ (if s then Z.neg m else Z.pos m) = n * 2 ^ (- e)
  | _ => False
  end.

(** The floats with the sign bit clear, and NaN (which compares equal to
    nothing). *)
Definition unsigned_or_nan (f : spec_float) : Prop :=
  match f with
  | S754_nan => True
  | S754_zero s | S754_finite s _ _ | S754_infinity s => s = false
  end.

(** A 16-bit register word. *)
Definition word (w : Z) : Prop := 0 <= w < 65536.

(** * The logger *)

(** ** Python values in a dict of measurements *)

(** The values [flatten_nested_dict] tells apart by [isinstance]: a dict
    (its items in insertion order), a bool, an int, a float, a string;
    [VOther] stands for a value of any other type ([None], a list, ...). *)
#[local] Unset Elimination Schemes.
Inductive pyval : Type :=
| VOther
| VBool (b : bool)
| VInt (n : Z)
| VFloat (f : spec_float)
| VStr (s : string)
| VDict (items : list (string * pyval)).
#[local] Set Elimination Schemes.

(** [isinstance(value, (int, float, bool))] *)
Definition is_number (v : pyval) : bool :=
  match v with
  | VBool _ | VInt _ | VFloat _ => true
  | _ => false
  end.

(** A reading as the dict of floats it is, and its [items()]. A reading
    is flat and its keys are distinct, so the order in which its items are
    visited has no effect on the dict a loop builds from them. *)
Definition fields_of_reading (d : reading) : gmap string pyval := VFloat <$> d.

Definition items_of_reading (d : reading) : list (string * pyval) :=
  map_to_list (fields_of_reading d).

(** ** A point and the database client *)

Record point : Type := {
  measurement : string;
  time : Z;
  fields : gmap string pyval;
  tags : option (gmap string string)
}.

(** How the database answers a [write_points]: the batch is stored, or the
    client raises. *)
Inductive db_reply : Type :=
| Stored
| Refused (e : exn).

Record influx : Type := {
  answers : list db_reply;
  stored : list (list point)
}.

(** What the logger works on: the instrument of its tracer, the database
    client, and the system clock ([clock n] is what the [n]-th reading of
    the clock gives). *)
Record world : Type := {
  tracer : bus;
  ifclient : influx;
  clock : nat -> Z;
  ticks : nat
}.

Definition L (A : Type) : Type := world -> result A * world.

Definition retL {A} (a : A) : L A := fun w => (Ok a, w).

Definition bindL {A B} (m : L A) (k : A -> L B) : L B :=
  fun w =>
    let '(r, w') := m w in
    match r with
    | Ok a => k a w'
    | Raise e => (Raise e, w')
    end.

(** [try: m except Exception: h] *)
Definition try_exceptL {A} (m : L A) (h : exn -> L A) : L A :=
  fun w =>
    let '(r, w') := m w in
    match r with
    | Ok a => (Ok a, w')
    | Raise e => h e w'
    end.

Notation "'log!' x ':=' m 'in' k" := (bindL m (fun x => k))
  (at level 10, x name, m at level 200, k at level 200,
   only parsing) : py_scope.

(** A method of [self.tracer], run on the tracer's instrument. *)
Definition on_tracer {A} (m : M A) : L A :=
  fun w =>
    let '(r, b') := m (tracer w) in
    (r, {| tracer := b'; ifclient := ifclient w;
           clock := clock w; ticks := ticks w |}).

(** The client's [write_points]: one answer of the database per call; no
    answer at all is a connection error. *)
Definition write_points (points : list point) : L unit :=
  fun w =>
    let db := ifclient w in
    let client := fun a s =>
      {| tracer := tracer w; ifclient := {| answers := a; stored := s |};
         clock := clock w; ticks := ticks w |} in
    match answers db with
    | Stored :: rest => (Ok tt, client rest (stored db ++ [points]))
    | Refused e :: rest => (Raise e, client rest (stored db))
    | [] => (Raise IOError, w)
    end.

(** [SolarTracer.getTimestamp]: reads the clock. *)
Definition getTimestamp : L Z :=
  fun w =>
    (Ok (clock w (ticks w)),
     {| tracer := tracer w; ifclient := ifclient w;
        clock := clock w; ticks := S (ticks w) |}).

(** ** The logger's methods *)

Definition create_measurement_point (measurement_name : string)
  (fields : gmap string pyval) (tags : option (gmap string string))
  (timestamp : option Z) : L point :=
  (log! timestamp :=
     match timestamp with
     | None => getTimestamp
     | Some t => retL t
     end in
   let point := {| measurement := measurement_name; time := timestamp;
                   fields := fields; tags := None |} in
   let point :=
     match tags with
     | Some t =>
         if bool_decide (t = ∅) then point
         else {| measurement := measurement_name; time := timestamp;
                 fields := fields; tags := Some t |}
     | None => point
     end in
   retL point)%py.

Section Logger.

(** [float(s)] on a string: the float it spells, or [None] where Python
    raises [ValueError]. *)
Variable float_of_str : string -> option spec_float.

(** [hash(s)] on a string. *)
Variable hash : string -> Z.

(** [f"{prefix}{separator}{key}" if prefix else key] *)
Definition new_key (prefix separator key : string) : string :=
  if bool_decide (prefix = "") then key else prefix +:+ separator +:+ key.

(** [flatten_nested_dict], by recursion on the value that holds the dict;
    the inner loop runs over its items and carries [flattened]. *)
Fixpoint flatten_value (value : pyval) (prefix separator : string)
  {struct value} : gmap string pyval :=
  match value with
  | VDict data =>
      (fix items (l : list (string * pyval)) (flattened : gmap string pyval)
         {struct l} : gmap string pyval :=
         match l with
         | [] => flattened
         | (key, v) :: rest =>
             let new_key := new_key prefix separator key in
             items rest
               match v with
               | VDict _ => flatten_value v new_key separator ∪ flattened
               | VBool _ | VInt _ | VFloat _ => <[new_key := v]> flattened
               | VStr s =>
                   match float_of_str s with
                   | Some f => <[new_key := VFloat f]> flattened
                   | None => flattened
                   end
               | VOther => flattened
               end
         end) data ∅
  | _ => ∅
  end.

Definition flatten_nested_dict (data : list (string * pyval))
  (prefix separator : string) : gmap string pyval :=
  flatten_value (VDict data) prefix separator.

(** The loop of [flatten_nested_dict] on its own, from any [flattened]. *)
Definition flatten_items (prefix separator : string)
  : list (string * pyval) -> gmap string pyval -> gmap string pyval :=
  fix items (l : list (string * pyval)) (flattened : gmap string pyval)
    {struct l} : gmap string pyval :=
    match l with
    | [] => flattened
    | (key, v) :: rest =>
        let new_key := new_key prefix separator key in
        items rest
          match v with
          | VDict _ => flatten_value v new_key separator ∪ flattened
          | VBool _ | VInt _ | VFloat _ => <[new_key := v]> flattened
          | VStr s =>
              match float_of_str s with
              | Some f => <[new_key := VFloat f]> flattened
              | None => flattened
              end
          | VOther => flattened
          end
    end.

Definition log_realtime_data (measurement_name : string) : L bool :=
  try_exceptL
    (log! current_data := on_tracer readCurrent in
     match current_data with
     | None => retL false
     | Some current_data =>
         if bool_decide (current_data = ∅) then retL false
         else
           let flattened_data :=
             flatten_nested_dict (items_of_reading current_data) "" "_" in
           log! point := create_measurement_point measurement_name
                           flattened_data None None in
           log! _u := write_points [point] in
           retL true
     end)%py
    (fun _ => retL false).

Definition log_statistics (measurement_name : string) : L bool :=
  try_exceptL
    (log! stats_data := on_tracer readStats in
     match stats_data with
     | None => retL false
     | Some stats_data =>
         if bool_decide (stats_data = ∅) then retL false
         else
           log! point := create_measurement_point measurement_name
                           (fields_of_reading stats_data) None None in
           log! _u := write_points [point] in
           retL true
     end)%py
    (fun _ => retL false).

Definition log_rated_data (measurement_name : string) : L bool :=
  try_exceptL
    (log! rated_data := on_tracer readRatedData in
     match rated_data with
     | None => retL false
     | Some rated_data =>
         if bool_decide (rated_data = ∅) then retL false
         else
           log! point := create_measurement_point measurement_name
                           (fields_of_reading rated_data) None None in
           log! _u := write_points [point] in
           retL true
     end)%py
    (fun _ => retL false).

Definition log_settings (measurement_name : string) : L bool :=
  try_exceptL
    (log! settings_data := on_tracer readAllSettings in
     match settings_data with
     | None => retL false
     | Some settings_data =>
         if bool_decide (settings_data = ∅) then retL false
         else
           log! point := create_measurement_point measurement_name
                           (fields_of_reading settings_data) None None in
           log! _u := write_points [point] in
           retL true
     end)%py
    (fun _ => retL false).

(** The loop of [log_system_status] that makes every value a number. *)
Definition numeric_status (status_data : list (string * pyval))
  : gmap string pyval :=
  foldl (fun numeric_status '(key, value) =>
           match value with
           | VBool b => <[key := VInt (if b then 1 else 0)]> numeric_status
           | VStr s =>
               if bool_decide (s = "Night")
               then <[key := VInt 1]> numeric_status
               else if bool_decide (s = "Day")
               then <[key := VInt 0]> numeric_status
               else <[key := VInt (hash s mod 1000)]> numeric_status
           | _ => <[key := value]> numeric_status
           end)
        ∅ status_data.

Definition log_system_status (measurement_name : string) : L bool :=
  try_exceptL
    (log! status_data := on_tracer readSystemStatus in
     match status_data with
     | None => retL false
     | Some status_data =>
         if bool_decide (status_data = ∅) then retL false
         else
           let numeric_status :=
             numeric_status (items_of_reading status_data) in
           log! point := create_measurement_point measurement_name
                           numeric_status None None in
           log! _u := write_points [point] in
           retL true
     end)%py
    (fun _ => retL false).

Definition log_all_data : L bool :=
  (let success_count := 0 in
   log! r := log_realtime_data "solar_realtime" in
   let success_count := if r then success_count + 1 else success_count in
   log! r := log_statistics "solar_statistics" in
   let success_count := if r then success_count + 1 else success_count in
   log! r := log_system_status "solar_system_status" in
   let success_count := if r then success_count + 1 else success_count in
   log! r := log_rated_data "solar_rated" in
   let success_count := if r then success_count + 1 else success_count in
   log! r := log_settings "solar_settings" in
   let success_count := if r then success_count + 1 else success_count in
   retL (0 <? success_count))%py.

Definition run_single_log (data_type : string) : L bool :=
  if bool_decide (data_type = "realtime")
  then log_realtime_data "solar_realtime"
  else if bool_decide (data_type = "statistics")
  then log_statistics "solar_statistics"
  else if bool_decide (data_type = "rated")
  then log_rated_data "solar_rated"
  else if bool_decide (data_type = "settings")
  then log_settings "solar_settings"
  else if bool_decide (data_type = "status")
  then log_system_status "solar_system_status"
  else if bool_decide (data_type = "all")
  then log_all_data
  else retL false.

End Logger.

(** ** Vocabulary of the further properties *)

(** [hundredths_within f n]: the double [f] is [n / 100] up to an error
    below 2^-20 / 100 (less than 10^-8), and it is zero exactly when [n]
    is: the zero float stands for [n = 0] only, and a float that is not
    zero for a positive [n] only. The comparison is made on integers, with
    both sides scaled by 100 * 2^60. *)
Definition hundredths_within (f : spec_float) (n : Z) : Prop :=
  match f with
  | S754_zero false => n = 0
  | S754_finite false m e =>
      0 < n /\ -60 <= e /\
      Z.abs (100 * (Z.pos m * 2 ^ (e + 60)) - n * 2 ^ 60) < 2 ^ 40
  | _ => False
  end.

(** A zero or a positive finite double: not a NaN, not an infinity, not
    below zero. *)
Definition finite_nonneg (f : spec_float) : bool :=
  match f with
  | S754_zero false | S754_finite false _ _ => true
  | _ => false
  end.

(** [logged rq name w r w']: what one logging call that answered [r]
    made of the world [w]. One request [rq] went to the device and used up
    one of its replies; the clock itself is the same; and either the call
    answered [False] and the database stores what it stored, or it
    answered [True] and one batch of a single point was added, a point
    named [name], stamped with the clock reading of the call and without
    tags. *)
Definition logged (rq : request) (name : string) (w : world) (r : bool)
  (w' : world) : Prop :=
  sent (tracer w') = sent (tracer w) ++ [rq] /\
  replies (tracer w') = tail (replies (tracer w)) /\
  clock w' = clock w /\
  ((r = false /\ stored (ifclient w') = stored (ifclient w)) \/
   (r = true /\
    exists p, stored (ifclient w') = stored (ifclient w) ++ [[p]] /\
              measurement p = name /\ time p = clock w (ticks w) /\
              tags p = None)).

(** * Properties *)

(** ** binary64 arithmetic *)

Section Binary64.

Lemma pow2_gt0 (a : Z) : 0 <= a -> 0 < 2 ^ a.
Proof. intros. by apply Z.pow_pos_nonneg. Qed.

Lemma pow2_split (a b : Z) : 0 <= a -> 0 <= b -> 2 ^ (a + b) = 2 ^ a * 2 ^ b.
Proof. intros. by apply Z.pow_add_r. Qed.

Lemma digits2_pos_size (p : positive) : digits2_pos p = Pos.size p.
Proof. induction p as [p IH|p IH|]; simpl; by rewrite ?IH. Qed.

(** The number of binary digits brackets a positive integer. *)
Lemma Zdigits2_bounds (m : Z) :
  0 < m -> 0 < Zdigits2 m /\ 2 ^ (Zdigits2 m - 1) <= m < 2 ^ Zdigits2 m.
Proof.
  destruct m as [|p|p]; [lia| |lia]. intros _. simpl.
  rewrite digits2_pos_size. split; [lia|].
  pose proof (Pos.size_gt p) as Hgt. pose proof (Pos.size_le p) as Hle.
  split.
  - assert (2 ^ Z.pos (Pos.size p) <= 2 * Z.pos p) as H.
    { change (2 * Z.pos p) with (Z.pos p~0).
      rewrite <- Pos2Z.inj_pow. by apply Pos2Z.pos_le_pos. }
    replace (Z.pos (Pos.size p)) with (1 + (Z.pos (Pos.size p) - 1)) in H
      by lia.
    rewrite pow2_split in H by lia. lia.
  - rewrite <- Pos2Z.inj_pow. by apply Pos2Z.pos_lt_pos.
Qed.

Lemma Zdigits2_unique (m d : Z) :
  2 ^ (d - 1) <= m < 2 ^ d -> 0 < d -> Zdigits2 m = d.
Proof.
  intros [Hlo Hhi] Hd.
  assert (0 < m) as Hm by (pose proof (pow2_gt0 (d - 1)); lia).
  destruct (Zdigits2_bounds m Hm) as (Hd' & Hlo' & Hhi').
  destruct (Z.lt_trichotomy (Zdigits2 m) d) as [Hlt|[?|Hlt]]; [|done|].
  - assert (2 ^ Zdigits2 m <= 2 ^ (d - 1))
      by (apply Z.pow_le_mono_r; lia). lia.
  - assert (2 ^ d <= 2 ^ (Zdigits2 m - 1))
      by (apply Z.pow_le_mono_r; lia). lia.
Qed.

Lemma Zdigits2_le (m a : Z) : 0 < m -> m < 2 ^ a -> Zdigits2 m <= a.
Proof.
  intros Hm Ha. destruct (Zdigits2_bounds m Hm) as (Hd & Hlo & _).
  destruct (Z_lt_le_dec a (Zdigits2 m)) as [Hlt|]; [|done].
  destruct (Z_lt_le_dec a 0) as [Hneg|Hnn].
  - rewrite Z.pow_neg_r in Ha by done. lia.
  - assert (2 ^ a <= 2 ^ (Zdigits2 m - 1))
      by (apply Z.pow_le_mono_r; lia). lia.
Qed.

Lemma div_floor_bounds (a b : Z) : 0 <= a -> 0 < b -> a - b < a / b * b <= a.
Proof.
  intros Ha Hb. pose proof (Z.div_mod a b ltac:(lia)).
  pose proof (Z.mod_pos_bound a b Hb). lia.
Qed.

(** *** Shifting a mantissa to the right *)

Lemma shr_m_shr_1 (mrs : shr_record) :
  0 <= shr_m mrs -> shr_m (shr_1 mrs) = shr_m mrs / 2.
Proof.
  destruct mrs as [m r s]. cbn [shr_m]. intros Hm.
  destruct m as [|[p|p|]|p]; cbn [shr_1 shr_m]; try done.
  - apply Z.div_unique with 1; lia.
  - apply Z.div_unique with 0; lia.
Qed.

Lemma shr_m_iter (p : positive) (mrs : shr_record) :
  0 <= shr_m mrs ->
  shr_m (SpecFloat.iter_pos shr_1 p mrs) = shr_m mrs / 2 ^ Z.pos p.
Proof.
  revert mrs. induction p as [p IH|p IH|]; intros mrs Hm; simpl.
  - assert (0 <= shr_m (shr_1 mrs)) as H1
      by (rewrite shr_m_shr_1 by done; by apply Z.div_pos).
    assert (0 <= shr_m (SpecFloat.iter_pos shr_1 p (shr_1 mrs))) as H2
      by (rewrite IH by done; apply Z.div_pos; [done|by apply pow2_gt0]).
    rewrite IH, IH, shr_m_shr_1 by done.
    rewrite !Z.div_div by (try apply pow2_gt0; lia).
    f_equal. replace (Z.pos p~1) with (1 + Z.pos p + Z.pos p) by lia.
    rewrite !pow2_split by lia. lia.
  - assert (0 <= shr_m (SpecFloat.iter_pos shr_1 p mrs)) as H2
      by (rewrite IH by done; apply Z.div_pos; [done|by apply pow2_gt0]).
    rewrite IH, IH by done.
    rewrite !Z.div_div by (try apply pow2_gt0; lia).
    f_equal. replace (Z.pos p~0) with (Z.pos p + Z.pos p) by lia.
    by rewrite pow2_split by lia.
  - by rewrite shr_m_shr_1.
Qed.

Lemma shr_nonpos (mrs : shr_record) (e n : Z) :
  n <= 0 -> shr mrs e n = (mrs, e).
Proof. destruct n; simpl; [done|lia|done]. Qed.

Lemma shr_spec (mrs : shr_record) (e n : Z) :
  0 <= shr_m mrs ->
  shr_m (shr mrs e n).1 = shr_m mrs / 2 ^ Z.max 0 n /\
  (shr mrs e n).2 = e + Z.max 0 n.
Proof.
  intros Hm. destruct n as [|p|p]; simpl.
  - rewrite Z.div_1_r. split; [done|lia].
  - rewrite shr_m_iter by done. split; [done|lia].
  - rewrite Z.div_1_r. split; [done|lia].
Qed.

Lemma shr_m_of_loc (m : Z) (l : location) : shr_m (shr_record_of_loc m l) = m.
Proof. by destruct l as [|[]]. Qed.

Lemma round_nearest_even_bounds (m : Z) (l : location) :
  m <= round_nearest_even m l <= m + 1.
Proof.
  destruct l as [|[]]; simpl; try lia. destruct (Z.even m); lia.
Qed.

(** *** Rounding to nearest *)

(** A mantissa that already fits is delivered as it is. *)
Lemma binary_round_aux_exact (sx : bool) (mx : positive) (ex : Z) :
  Z.pos mx < 2 ^ 53 -> -1074 <= ex <= 971 ->
  binary_round_aux prec emax sx (Z.pos mx) ex loc_Exact
  = S754_finite sx mx ex.
Proof.
  intros Hmx Hex.
  assert (Zdigits2 (Z.pos mx) <= 53) as Hd by (by apply Zdigits2_le).
  unfold binary_round_aux, shr_fexp, fexp, emin, prec, emax.
  rewrite shr_nonpos by lia. cbn [shr_record_of_loc shr_m loc_of_shr_record
    round_nearest_even].
  rewrite shr_nonpos by lia. cbn [shr_record_of_loc shr_m].
  replace (ex <=? 1024 - 53) with true by (symmetry; apply Z.leb_le; lia).
  done.
Qed.

(** Rounding a positive mantissa [mx] at exponent [ex], away from the
    subnormal and the overflow range: the result is finite with the sign
    asked for; with [k] the number of digits in excess of 53, it lies
    between the mantissa cut to 53 digits and the next one. *)
Lemma binary_round_aux_finite (sx : bool) (mx ex : Z) (lx : location) :
  0 < mx -> -1074 <= ex -> ex + Z.max 0 (Zdigits2 mx - 53) < 971 ->
  exists (m : positive) (e : Z),
    binary_round_aux prec emax sx mx ex lx = S754_finite sx m e /\
    Z.pos m <= 2 ^ 53 /\
    ex + Z.max 0 (Zdigits2 mx - 53) <= e
      <= ex + Z.max 0 (Zdigits2 mx - 53) + 1 /\
    mx / 2 ^ Z.max 0 (Zdigits2 mx - 53) * 2 ^ Z.max 0 (Zdigits2 mx - 53)
      <= Z.pos m * 2 ^ (e - ex)
      <= (mx / 2 ^ Z.max 0 (Zdigits2 mx - 53) + 1)
         * 2 ^ Z.max 0 (Zdigits2 mx - 53).
Proof.
  intros Hmx Hex. set (k := Z.max 0 (Zdigits2 mx - 53)). intros Hk.
  destruct (Zdigits2_bounds mx Hmx) as (Hd & Hlo & Hhi).
  assert (0 < 2 ^ k) as Hpk by (apply pow2_gt0; lia).
  (* the mantissa after the first shift *)
  assert (1 <= mx / 2 ^ k < 2 ^ 53) as [Hm1 Hm2].
  { destruct (Z_le_gt_dec (Zdigits2 mx) 53) as [Hle|Hgt].
    - replace k with 0 by lia. rewrite Z.div_1_r. split; [lia|].
      assert (2 ^ Zdigits2 mx <= 2 ^ 53) by (apply Z.pow_le_mono_r; lia).
      lia.
    - replace (Zdigits2 mx) with (53 + k) in Hhi by lia.
      replace (Zdigits2 mx - 1) with (52 + k) in Hlo by lia.
      rewrite pow2_split in Hhi, Hlo by lia. split.
      + apply Z.div_le_lower_bound; [done|]. lia.
      + apply Z.div_lt_upper_bound; [done|]. lia. }
  unfold binary_round_aux.
  destruct (shr_fexp prec emax mx ex lx) as [mrs1 e1] eqn:E1.
  assert (shr_m mrs1 = mx / 2 ^ k /\ e1 = ex + k) as [Hs1 He1].
  { unfold shr_fexp in E1.
    pose proof (shr_spec (shr_record_of_loc mx lx) ex
                  (fexp prec emax (Zdigits2 mx + ex) - ex)) as Hs.
    rewrite E1, shr_m_of_loc in Hs. cbn [fst snd] in Hs.
    replace (Z.max 0 (fexp prec emax (Zdigits2 mx + ex) - ex)) with k in Hs
      by (unfold fexp, emin, prec, emax; lia).
    apply Hs. lia. }
  pose proof (round_nearest_even_bounds (shr_m mrs1)
                (loc_of_shr_record mrs1)) as Hr.
  set (m1 := round_nearest_even (shr_m mrs1) (loc_of_shr_record mrs1)) in *.
  rewrite Hs1 in Hr.
  destruct (shr_fexp prec emax m1 e1 loc_Exact) as [mrs2 e2] eqn:E2.
  pose proof (shr_spec (shr_record_of_loc m1 loc_Exact) e1
                (fexp prec emax (Zdigits2 m1 + e1) - e1)) as Hs.
  unfold shr_fexp in E2. rewrite E2, shr_m_of_loc in Hs. cbn [fst snd] in Hs.
  destruct Hs as [Hs2 He2]; [lia|].
  destruct (Z_lt_le_dec m1 (2 ^ 53)) as [Hlt|Hge].
  - (* no carry *)
    assert (Zdigits2 m1 <= 53) as Hd1 by (apply Zdigits2_le; lia).
    replace (Z.max 0 (fexp prec emax (Zdigits2 m1 + e1) - e1)) with 0
      in Hs2, He2 by (unfold fexp, emin, prec, emax; lia).
    rewrite Z.div_1_r in Hs2. rewrite Hs2.
    destruct m1 as [|p|p] eqn:Em1; [lia| |lia].
    replace (e2 <=? emax - prec) with true
      by (symmetry; apply Z.leb_le; unfold emax, prec; lia).
    exists p, e2. split; [done|]. split; [lia|].
    replace (e2 - ex) with k by lia. nia.
  - (* the rounding carried into a 54th digit *)
    assert (m1 = 2 ^ 53) as Em1 by lia.
    assert (Zdigits2 m1 = 54) as Hd1 by (by rewrite Em1).
    replace (Z.max 0 (fexp prec emax (Zdigits2 m1 + e1) - e1)) with 1
      in Hs2, He2 by (unfold fexp, emin, prec, emax; lia).
    rewrite Em1 in Hs2. change (2 ^ 53 / 2 ^ 1) with (Z.pos (2 ^ 52)) in Hs2.
    rewrite Hs2.
    replace (e2 <=? emax - prec) with true
      by (symmetry; apply Z.leb_le; unfold emax, prec; lia).
    exists (2 ^ 52)%positive, e2. split; [done|]. split; [lia|].
    replace (e2 - ex) with (1 + k) by lia. rewrite pow2_split by lia.
    replace (Z.pos (2 ^ 52) * (2 ^ 1 * 2 ^ k)) with (m1 * 2 ^ k)
      by (rewrite Em1; change (Z.pos (2 ^ 52)) with (2 ^ 52);
          change (2 ^ 53) with (2 ^ 52 * 2 ^ 1); ring).
    nia.
Qed.

(** *** Integers as floats *)

Lemma iter_xO_pow2 (p q : positive) :
  Z.pos (Pos.iter xO p q) = Z.pos p * 2 ^ Z.pos q.
Proof.
  induction q as [|q IH] using Pos.peano_ind.
  - cbn [Pos.iter]. change (2 ^ 1) with 2. lia.
  - rewrite Pos.iter_succ, Pos2Z.inj_succ, Z.pow_succ_r by lia.
    rewrite Pos2Z.inj_xO, IH. ring.
Qed.

(** An integer below 2^53 converts without rounding: the mantissa is the
    integer, shifted to 53 digits. *)
Lemma Z2SF_pos (n : Z) :
  0 < n < 2 ^ 53 ->
  exists m : positive,
    Z2SF n = S754_finite false m (Zdigits2 n - 53) /\
    Z.pos m = n * 2 ^ (53 - Zdigits2 n).
Proof.
  intros [Hn0 Hn]. destruct n as [|p|p]; [lia| |lia].
  assert (Zdigits2 (Z.pos p) <= 53) as Hd by (by apply Zdigits2_le).
  destruct (Zdigits2_bounds (Z.pos p) Hn0) as (Hd0 & Hlo & Hhi).
  unfold Z2SF, binary_normalize, binary_round, shl_align.
  change (Z.pos (digits2_pos p)) with (Zdigits2 (Z.pos p)).
  replace (fexp prec emax (Zdigits2 (Z.pos p) + 0))
    with (Zdigits2 (Z.pos p) - 53) by (unfold fexp, emin, prec, emax; lia).
  rewrite Z.sub_0_r.
  destruct (Zdigits2 (Z.pos p) - 53) as [|q|q] eqn:Eq; [|lia|].
  - rewrite binary_round_aux_exact by (done || lia).
    exists p. split; [done|].
    replace (53 - Zdigits2 (Z.pos p)) with 0 by lia. lia.
  - assert (Z.pos (Pos.iter xO p q) = Z.pos p * 2 ^ (53 - Zdigits2 (Z.pos p)))
      as Hm by (rewrite iter_xO_pow2; do 2 f_equal; lia).
    rewrite binary_round_aux_exact.
    + by exists (Pos.iter xO p q).
    + rewrite Hm.
      assert (2 ^ Zdigits2 (Z.pos p) * 2 ^ (53 - Zdigits2 (Z.pos p)) = 2 ^ 53)
        as <- by (rewrite <- pow2_split by lia; f_equal; lia).
      pose proof (pow2_gt0 (53 - Zdigits2 (Z.pos p))). nia.
    + lia.
Qed.

(** [float(n)] does not overflow on the integers that occur as register
    words or as pairs of them. *)
Lemma float_of_int_small (n : Z) :
  0 <= n < 2 ^ 53 -> float_of_int n = Ok (Z2SF n).
Proof.
  intros [Hn0 Hn]. unfold float_of_int.
  destruct (Z.eq_dec n 0) as [->|Hne]; [done|].
  destruct (Z2SF_pos n) as (m & -> & _); [lia|done].
Qed.

(** *** Division *)

Lemma shl_cases (m s : Z) :
  0 <= s ->
  match s with
  | Z0 => m
  | Z.pos _ => Z.shiftl m s
  | Z.neg _ => 0
  end = m * 2 ^ s.
Proof.
  intros Hs. destruct s as [|p|p]; [lia| |lia].
  by rewrite Z.shiftl_mul_pow2.
Qed.

(** The rounded quotient of [m1 * 2^e1] by [m2 * 2^e2]: finite, and
    within two units of the exact quotient at the exponent
    [e' = digits m1 + e1 - (digits m2 + e2) - 53]. *)
Lemma div_round_finite (s : bool) (m1 e1 m2 e2 : Z) :
  0 < m1 -> 0 < m2 ->
  Zdigits2 m1 <= Zdigits2 m2 + 53 ->
  -1074 <= Zdigits2 m1 + e1 - (Zdigits2 m2 + e2) - 53 < 969 ->
  exists (m : positive) (e : Z),
    (let '(q, ez, l) := SFdiv_core_binary prec emax m1 e1 m2 e2 in
     binary_round_aux prec emax s q ez l) = S754_finite s m e /\
    Z.pos m <= 2 ^ 53 /\
    0 <= e - (Zdigits2 m1 + e1 - (Zdigits2 m2 + e2) - 53) <= 2 /\
    (Z.pos m * 2 ^ (e - (Zdigits2 m1 + e1 - (Zdigits2 m2 + e2) - 53)) - 2)
      * m2
      <= m1 * 2 ^ (53 + Zdigits2 m2 - Zdigits2 m1)
      < (Z.pos m * 2 ^ (e - (Zdigits2 m1 + e1 - (Zdigits2 m2 + e2) - 53)) + 2)
        * m2.
Proof.
  intros Hm1 Hm2 Hdd He.
  destruct (Zdigits2_bounds m1 Hm1) as (Hd1 & Hlo1 & Hhi1).
  destruct (Zdigits2_bounds m2 Hm2) as (Hd2 & Hlo2 & Hhi2).
  set (d1 := Zdigits2 m1) in *. set (d2 := Zdigits2 m2) in *.
  set (e' := d1 + e1 - (d2 + e2) - 53) in *.
  unfold SFdiv_core_binary. fold d1 d2.
  replace (Z.min (fexp prec emax (d1 + e1 - (d2 + e2))) (e1 - e2)) with e'
    by (unfold fexp, emin, prec, emax; lia).
  replace (e1 - e2 - e') with (53 + d2 - d1) by lia.
  rewrite shl_cases by lia.
  set (sh := 53 + d2 - d1). set (m' := m1 * 2 ^ sh).
  pose proof (Z_div_mod m' m2 ltac:(lia)) as Hdm.
  destruct (Z.div_eucl m' m2) as [q r]. destruct Hdm as [Hq Hr].
  (* the quotient has 53 or 54 digits *)
  assert (2 ^ (52 + d2) <= m' < 2 ^ (53 + d2)) as [Hlo' Hhi'].
  { unfold m'. replace (52 + d2) with (d1 - 1 + sh) by (unfold sh; lia).
    replace (53 + d2) with (d1 + sh) by (unfold sh; lia).
    rewrite !pow2_split by (unfold sh; lia).
    pose proof (pow2_gt0 sh ltac:(unfold sh; lia)). nia. }
  assert (2 ^ 52 <= q < 2 ^ 54) as [Hq1 Hq2].
  { replace (52 + d2) with (52 + 1 + (d2 - 1)) in Hlo' by lia.
    replace (53 + d2) with (54 + (d2 - 1)) in Hhi' by lia.
    replace (2 ^ d2) with (2 ^ (1 + (d2 - 1))) in Hhi2 by (f_equal; lia).
    rewrite !pow2_split in * by lia.
    pose proof (pow2_gt0 (d2 - 1) ltac:(lia)).
    change (2 ^ 1) with 2 in *. change (2 ^ 52) with 4503599627370496 in *.
    change (2 ^ 54) with 18014398509481984 in *. nia. }
  assert (53 <= Zdigits2 q <= 54) as Hdq.
  { split.
    - destruct (Zdigits2_bounds q ltac:(lia)) as (_ & _ & Hh).
      destruct (Z_lt_le_dec (Zdigits2 q) 53) as [Hlt|]; [|done].
      assert (2 ^ Zdigits2 q <= 2 ^ 52) by (apply Z.pow_le_mono_r; lia).
      lia.
    - apply Zdigits2_le; lia. }
  destruct (binary_round_aux_finite s q e' (new_location m2 r))
    as (m & e & Hres & Hm53 & Hexp & Hval); [lia..|].
  exists m, e. split; [exact Hres|]. split; [exact Hm53|]. split; [lia|].
  set (W := Z.pos m * 2 ^ (e - e')) in *.
  set (k := Z.max 0 (Zdigits2 q - 53)) in *.
  assert (q - 1 <= q / 2 ^ k * 2 ^ k /\ (q / 2 ^ k + 1) * 2 ^ k <= q + 2)
    as [Hk1 Hk2].
  { destruct (Z.eq_dec (Zdigits2 q) 53) as [E|E].
    - replace k with 0 by lia. rewrite Z.div_1_r. change (2 ^ 0) with 1. lia.
    - replace k with 1 by lia. change (2 ^ 1) with 2.
      pose proof (Z.div_mod q 2 ltac:(lia)).
      pose proof (Z.mod_pos_bound q 2 ltac:(lia)). lia. }
  nia.
Qed.

(** *** Small integers: exact arithmetic *)

Lemma shr_1_even (c : Z) :
  0 <= c ->
  shr_1 {| shr_m := 2 * c; shr_r := false; shr_s := false |}
  = {| shr_m := c; shr_r := false; shr_s := false |}.
Proof. by destruct c as [|p|p]; [..|lia]. Qed.

(** Shifting out digits that are all zero loses nothing. *)
Lemma shr_iter_exact (p : positive) :
  forall c : Z,
    0 <= c ->
    SpecFloat.iter_pos shr_1 p
      {| shr_m := c * 2 ^ Z.pos p; shr_r := false; shr_s := false |}
    = {| shr_m := c; shr_r := false; shr_s := false |}.
Proof.
  induction p as [p IH|p IH|]; intros c Hc; cbn [SpecFloat.iter_pos].
  - pose proof (pow2_gt0 (Z.pos p) ltac:(lia)) as Hp.
    replace (c * 2 ^ Z.pos p~1) with (2 * (c * 2 ^ Z.pos p * 2 ^ Z.pos p)).
    + rewrite shr_1_even by nia. rewrite IH by nia. by rewrite IH.
    + replace (Z.pos p~1) with (1 + Z.pos p + Z.pos p) by lia.
      rewrite !pow2_split by lia. change (2 ^ 1) with 2. ring.
  - pose proof (pow2_gt0 (Z.pos p) ltac:(lia)) as Hp.
    replace (c * 2 ^ Z.pos p~0) with (c * 2 ^ Z.pos p * 2 ^ Z.pos p).
    + rewrite IH by nia. by rewrite IH.
    + replace (Z.pos p~0) with (Z.pos p + Z.pos p) by lia.
      rewrite !pow2_split by lia. ring.
  - change (2 ^ 1) with 2. rewrite Z.mul_comm. by apply shr_1_even.
Qed.

(** Rounding a 53-digit mantissa followed by [k] zero digits: the zeros
    move into the exponent. *)
Lemma binary_round_aux_zeros (sx : bool) (c : positive) (k ex : Z) :
  2 ^ 52 <= Z.pos c < 2 ^ 53 -> 0 <= k -> -1074 <= ex -> ex + k <= 971 ->
  binary_round_aux prec emax sx (Z.pos c * 2 ^ k) ex loc_Exact
  = S754_finite sx c (ex + k).
Proof.
  intros Hc Hk Hex Hexk.
  destruct k as [|p|p]; [|clear Hk|lia].
  { change (2 ^ 0) with 1. rewrite Z.mul_1_r, Z.add_0_r.
    apply binary_round_aux_exact; lia. }
  assert (Zdigits2 (Z.pos c * 2 ^ Z.pos p) = 53 + Z.pos p) as Hd.
  { apply Zdigits2_unique; [|lia].
    replace (53 + Z.pos p - 1) with (52 + Z.pos p) by lia.
    rewrite !pow2_split by lia.
    pose proof (pow2_gt0 (Z.pos p) ltac:(lia)). nia. }
  assert (Zdigits2 (Z.pos c) = 53) as Hdc
    by (apply Zdigits2_unique; [exact Hc|lia]).
  unfold binary_round_aux, shr_fexp. rewrite Hd.
  replace (fexp prec emax (53 + Z.pos p + ex) - ex) with (Z.pos p)
    by (unfold fexp, emin, prec, emax; lia).
  cbn [shr shr_record_of_loc]. rewrite shr_iter_exact by lia.
  cbn [shr_m loc_of_shr_record round_nearest_even]. rewrite Hdc.
  rewrite shr_nonpos by (unfold fexp, emin, prec, emax; lia).
  cbn [shr_record_of_loc shr_m].
  replace (ex + Z.pos p <=? emax - prec) with true
    by (symmetry; apply Z.leb_le; unfold emax, prec; lia).
  done.
Qed.

(** The digits of a product. *)
Lemma Zdigits2_mul (a b : Z) :
  0 < a -> 0 < b ->
  Zdigits2 a + Zdigits2 b - 1 <= Zdigits2 (a * b) <= Zdigits2 a + Zdigits2 b.
Proof.
  intros Ha Hb.
  destruct (Zdigits2_bounds a Ha) as (Hda & Hla & Hha).
  destruct (Zdigits2_bounds b Hb) as (Hdb & Hlb & Hhb).
  destruct (Zdigits2_bounds (a * b) ltac:(nia)) as (Hdab & Hlab & Hhab).
  pose proof (pow2_gt0 (Zdigits2 a - 1) ltac:(lia)).
  pose proof (pow2_gt0 (Zdigits2 b - 1) ltac:(lia)).
  split.
  - destruct (Z_lt_le_dec (Zdigits2 (a * b)) (Zdigits2 a + Zdigits2 b - 1))
      as [Hlt|]; [|done].
    assert (2 ^ Zdigits2 (a * b) <= 2 ^ (Zdigits2 a - 1 + (Zdigits2 b - 1)))
      as Hp by (apply Z.pow_le_mono_r; lia).
    rewrite pow2_split in Hp by lia. nia.
  - apply Zdigits2_le; [nia|]. rewrite pow2_split by lia. nia.
Qed.

(** The product of two integers is computed exactly when it fits in 53
    digits. *)
Lemma SFmul_small (a b : Z) :
  0 < a -> 0 < b -> a * b < 2 ^ 53 ->
  SFmul prec emax (Z2SF a) (Z2SF b) = Z2SF (a * b).
Proof.
  intros Ha Hb Hab.
  assert (a < 2 ^ 53 /\ b < 2 ^ 53) as [Ha53 Hb53] by nia.
  destruct (Z2SF_pos a) as (ma & -> & Hma); [lia|].
  destruct (Z2SF_pos b) as (mb & -> & Hmb); [lia|].
  destruct (Z2SF_pos (a * b)) as (mab & -> & Hmab); [nia|].
  pose proof (Zdigits2_mul a b Ha Hb) as Hd.
  destruct (Zdigits2_bounds (a * b) ltac:(nia)) as (Hdab & Hlab & Hhab).
  assert (Zdigits2 a <= 53 /\ Zdigits2 b <= 53 /\ Zdigits2 (a * b) <= 53)
    as (Hda & Hdb & Hdab53) by (repeat split; apply Zdigits2_le; nia).
  destruct (Zdigits2_bounds a Ha) as (Hda0 & _).
  destruct (Zdigits2_bounds b Hb) as (Hdb0 & _).
  set (da := Zdigits2 a) in *. set (db := Zdigits2 b) in *.
  set (dab := Zdigits2 (a * b)) in *.
  cbn [SFmul xorb]. rewrite Pos2Z.inj_mul, Hma, Hmb.
  replace (a * 2 ^ (53 - da) * (b * 2 ^ (53 - db)))
    with (Z.pos mab * 2 ^ (53 + dab - da - db)).
  - rewrite binary_round_aux_zeros; [f_equal; lia| |lia..].
    rewrite Hmab.
    assert (2 ^ (dab - 1) * 2 ^ (53 - dab) = 2 ^ 52) as <-
      by (rewrite <- pow2_split by lia; f_equal; lia).
    assert (2 ^ dab * 2 ^ (53 - dab) = 2 ^ 53) as <-
      by (rewrite <- pow2_split by lia; f_equal; lia).
    pose proof (pow2_gt0 (53 - dab) ltac:(lia)). nia.
  - rewrite Hmab.
    replace (53 + dab - da - db) with (53 - da + (53 - db) - (53 - dab))
      by lia.
    assert (2 ^ (53 - da + (53 - db) - (53 - dab)) * 2 ^ (53 - dab)
            = 2 ^ (53 - da) * 2 ^ (53 - db)) as Hp.
    { rewrite <- !pow2_split by lia. f_equal. lia. }
    transitivity (a * b * (2 ^ (53 - da + (53 - db) - (53 - dab))
                           * 2 ^ (53 - dab))); [ring|].
    rewrite Hp. ring.
Qed.

(** The quotient of [b * k] by [b] is the double of [k]. *)
Lemma int_truediv_exact (b k : Z) :
  0 < b -> 0 < k -> b * k < 2 ^ 53 -> int_truediv (b * k) b = Ok (Z2SF k).
Proof.
  intros Hb Hk Hbk. assert (k < 2 ^ 53) as Hk53 by nia.
  unfold int_truediv.
  replace (b =? 0) with false by (symmetry; apply Z.eqb_neq; lia).
  replace (b * k =? 0) with false by (symmetry; apply Z.eqb_neq; nia).
  replace (b * k <? 0) with false by (symmetry; apply Z.ltb_ge; nia).
  replace (b <? 0) with false by (symmetry; apply Z.ltb_ge; lia).
  replace (Z.abs (b * k)) with (b * k) by nia.
  replace (Z.abs b) with b by lia. cbn [xorb].
  destruct (Z2SF_pos k) as (mk & -> & Hmk); [lia|].
  pose proof (Zdigits2_mul b k Hb Hk) as Hd.
  destruct (Zdigits2_bounds b Hb) as (Hdb0 & _).
  destruct (Zdigits2_bounds k Hk) as (Hdk0 & Hlk & Hhk).
  assert (Zdigits2 (b * k) <= 53) as Hdbk by (apply Zdigits2_le; nia).
  unfold SFdiv_core_binary.
  set (d1 := Zdigits2 (b * k)) in *. set (d2 := Zdigits2 b) in *.
  set (dk := Zdigits2 k) in *.
  replace (Z.min (fexp prec emax (d1 + 0 - (d2 + 0))) (0 - 0))
    with (d1 - d2 - 53) by (unfold fexp, emin, prec, emax; lia).
  replace (0 - 0 - (d1 - d2 - 53)) with (53 + d2 - d1) by lia.
  rewrite shl_cases by lia.
  pose proof (pow2_gt0 (53 + d2 - d1) ltac:(lia)) as Hsh.
  pose proof (Z_div_mod (b * k * 2 ^ (53 + d2 - d1)) b ltac:(lia)) as Hdm.
  destruct (Z.div_eucl (b * k * 2 ^ (53 + d2 - d1)) b) as [q r].
  destruct Hdm as [Hq Hr].
  assert (q = k * 2 ^ (53 + d2 - d1) /\ r = 0) as [-> ->].
  { set (t := k * 2 ^ (53 + d2 - d1) - q).
    assert (b * t = r) as Ht by (unfold t; lia).
    assert (t = 0) as Ht0; [|unfold t in Ht0; lia].
    destruct (Z_lt_le_dec t 0); [nia|].
    destruct (Z_lt_le_dec 0 t); [nia|lia]. }
  assert (new_location b 0 = loc_Exact) as ->
    by (unfold new_location; by destruct (Z.even b)).
  replace (k * 2 ^ (53 + d2 - d1)) with (Z.pos mk * 2 ^ (d2 + dk - d1)).
  - rewrite binary_round_aux_zeros; [destruct mk; do 2 f_equal; lia| |lia..].
    rewrite Hmk.
    assert (2 ^ (dk - 1) * 2 ^ (53 - dk) = 2 ^ 52) as <-
      by (rewrite <- pow2_split by lia; f_equal; lia).
    assert (2 ^ dk * 2 ^ (53 - dk) = 2 ^ 53) as <-
      by (rewrite <- pow2_split by lia; f_equal; lia).
    pose proof (pow2_gt0 (53 - dk) ltac:(lia)). nia.
  - rewrite Hmk. rewrite <- Z.mul_assoc, <- pow2_split by lia.
    do 2 f_equal. lia.
Qed.

(** [int(float(n))] is [n]. *)
Lemma int_of_float_Z2SF (n : Z) :
  0 <= n < 2 ^ 53 -> int_of_float (Z2SF n) = Ok n.
Proof.
  intros Hn. destruct (Z.eq_dec n 0) as [->|Hne]; [done|].
  destruct (Z2SF_pos n) as (m & -> & Hm); [lia|].
  assert (Zdigits2 n <= 53) as Hd by (apply Zdigits2_le; lia).
  cbn [int_of_float]. unfold trunc. f_equal.
  destruct (Zdigits2 n - 53) as [|p|p] eqn:E; [|lia|].
  - replace (53 - Zdigits2 n) with 0 in Hm by lia.
    rewrite Hm. change (2 ^ 0) with 1. lia.
  - replace (53 - Zdigits2 n) with (Z.pos p) in Hm by lia.
    rewrite Z.shiftr_div_pow2, Hm by lia.
    apply Z.div_mul. pose proof (pow2_gt0 (Z.pos p) ltac:(lia)). lia.
Qed.

(** *** The quotient by 100.0 *)

(** The hundredth of a positive 32-bit integer: never an exception, a
    positive finite double, and close enough to the exact quotient to
    tell any two integers apart. The bound is stated on the integer
    [mantissa * 2^(e+60)]. *)
Lemma hundredth_bound (n : Z) :
  0 < n < 2 ^ 32 ->
  exists (m : positive) (e : Z),
    int_truediv_float n f100 = Ok (S754_finite false m e) /\
    -60 <= e /\
    100 * (Z.pos m * 2 ^ (e + 60)) - 2 ^ 40 < n * 2 ^ 60
      < 100 * (Z.pos m * 2 ^ (e + 60)) + 2 ^ 40.
Proof.
  intros [Hn0 Hn].
  assert (n < 2 ^ 53) as Hn53 by (change (2 ^ 32) with 4294967296 in Hn;
    change (2 ^ 53) with 9007199254740992; lia).
  unfold int_truediv_float. rewrite float_of_int_small by lia.
  destruct (Z2SF_pos n) as (m1 & -> & Hm1); [lia|].
  cbn [bind]. unfold float_truediv, f100. cbn [is_zero].
  unfold SFdiv. cbn [xorb].
  destruct (Zdigits2_bounds n Hn0) as (Hd & Hlo & Hhi).
  assert (Zdigits2 n <= 32) as Hd32 by (by apply Zdigits2_le).
  set (d := Zdigits2 n) in *.
  assert (2 ^ d * 2 ^ (53 - d) = 2 ^ 53) as Hpd
    by (rewrite <- pow2_split by lia; f_equal; lia).
  assert (2 ^ (d - 1) * 2 = 2 ^ d) as Hpd'
    by (replace d with (d - 1 + 1) at 2 by lia; by rewrite pow2_split by lia).
  pose proof (pow2_gt0 (53 - d) ltac:(lia)) as Hp.
  pose proof (pow2_gt0 d ltac:(lia)) as HD.
  assert (Zdigits2 (Z.pos m1) = 53) as Hdm1.
  { apply Zdigits2_unique; [|lia]. rewrite Hm1.
    change (2 ^ (53 - 1)) with (2 ^ 52). change (2 ^ 53) with (2 ^ 52 * 2) in *.
    nia. }
  destruct (div_round_finite false (Z.pos m1) (d - 53)
              (Z.pos 7036874417766400) (-46))
    as (m & e & -> & _ & Hexp & Hval); [lia|lia|rewrite Hdm1; done| |].
  { rewrite Hdm1. change (Zdigits2 (Z.pos 7036874417766400)) with 53. lia. }
  rewrite Hdm1 in Hexp, Hval.
  change (Zdigits2 (Z.pos 7036874417766400)) with 53 in Hexp, Hval.
  replace (53 + (d - 53) - (53 + -46) - 53) with (d - 60) in Hexp, Hval by lia.
  change (53 + 53 - 53) with 53 in Hval.
  exists m, e. split; [done|]. split; [lia|].
  replace (e + 60) with (e - (d - 60) + d) by lia.
  rewrite pow2_split by lia.
  pose proof (pow2_gt0 (e - (d - 60)) ltac:(lia)) as HT.
  set (T := 2 ^ (e - (d - 60))) in *. set (D := 2 ^ d) in *.
  set (P := 2 ^ (53 - d)) in *. rewrite Hm1 in Hval.
  assert (D <= 2 ^ 32) as HD32 by (apply Z.pow_le_mono_r; lia).
  change (Z.pos 7036874417766400) with (100 * 2 ^ 46) in Hval.
  destruct Hval as [Hv1 Hv2].
  assert ((Z.pos m * T - 2) * (100 * 2 ^ 46) * D <= n * 2 ^ 106) as Hv1'.
  { replace (n * 2 ^ 106) with (n * P * 2 ^ 53 * D)
      by (change (2 ^ 106) with (2 ^ 53 * 2 ^ 53); rewrite <- Hpd at 2; ring).
    apply Z.mul_le_mono_nonneg_r; lia. }
  assert (n * 2 ^ 106 < (Z.pos m * T + 2) * (100 * 2 ^ 46) * D) as Hv2'.
  { replace (n * 2 ^ 106) with (n * P * 2 ^ 53 * D)
      by (change (2 ^ 106) with (2 ^ 53 * 2 ^ 53); rewrite <- Hpd at 2; ring).
    apply Z.mul_lt_mono_pos_r; lia. }
  change (2 ^ 106) with (2 ^ 60 * 2 ^ 46) in Hv1', Hv2'.
  change (2 ^ 32) with 4294967296 in *. change (2 ^ 40) with 1099511627776.
  assert (0 < 2 ^ 46) as H46 by done.
  set (Q := 2 ^ 46) in *. set (V := Z.pos m * (T * D)).
  assert ((100 * (V - 2 * D)) * Q <= (n * 2 ^ 60) * Q) as Ha
    by (unfold V; lia).
  assert ((n * 2 ^ 60) * Q < (100 * (V + 2 * D)) * Q) as Hb
    by (unfold V; lia).
  apply Z.mul_le_mono_pos_r in Ha; [|done].
  apply Z.mul_lt_mono_pos_r in Hb; [|done].
  lia.
Qed.

End Binary64.

(** ** 32-bit composition *)

Section Combine32.

Lemma pair_range (low high : Z) :
  word low -> word high -> 0 <= high * 65536 + low < 2 ^ 32.
Proof. unfold word. change (2 ^ 32) with 4294967296. lia. Qed.

Lemma combine32_unfold (low high : Z) :
  word low -> word high ->
  combine32BitValue low high
  = Ok (SFdiv prec emax (Z2SF (high * 65536 + low)) f100).
Proof.
  intros Hl Hh. pose proof (pair_range low high Hl Hh) as Hn.
  unfold combine32BitValue, int_truediv_float.
  rewrite float_of_int_small; [done|].
  change (2 ^ 32) with 4294967296 in Hn.
  change (2 ^ 53) with 9007199254740992. lia.
Qed.

Lemma Z2SF_exact (n : Z) : 0 <= n < 2 ^ 53 -> exact_int (Z2SF n) n.
Proof.
  intros Hn. destruct (Z.eq_dec n 0) as [->|Hne]; [done|].
  destruct (Z2SF_pos n) as (m & -> & Hm); [lia|].
  assert (Zdigits2 n <= 53) by (apply Zdigits2_le; lia).
  cbn [exact_int]. split; [lia|]. rewrite Hm. do 2 f_equal. lia.
Qed.

End Combine32.

(** C1. For 16-bit words [low] and [high], [combine32BitValue] combines
    the words as integers ([high * 65536 + low], converted to a float
    without any rounding) and divides once by [100.0], raising nothing; the
    result is never negative; two pairs of words with the same result are
    the same pair; [combine32BitValue(0, 1)] is the double written
    [655.36] and [combine32BitValue(100, 0)] is [1.0]. *)
Theorem combine32BitValue_spec (low high low' high' : Z) :
  word low -> word high -> word low' -> word high' ->
  combine32BitValue low high
    = Ok (SFdiv prec emax (Z2SF (high * 65536 + low)) f100) /\
  exact_int (Z2SF (high * 65536 + low)) (high * 65536 + low) /\
  (exists f, combine32BitValue low high = Ok f /\ nonnegative f = true) /\
  (combine32BitValue low high = combine32BitValue low' high' ->
   low = low' /\ high = high') /\
  (exists f, combine32BitValue 0 1 = Ok f /\ denotes f 65536 100) /\
  (exists f, combine32BitValue 100 0 = Ok f /\ denotes f 1 1).
Proof.
  intros Hl Hh Hl' Hh'.
  pose proof (pair_range low high Hl Hh) as Hn.
  pose proof (pair_range low' high' Hl' Hh') as Hn'.
  assert (2 ^ 32 < 2 ^ 53) as H3253 by done.
  split; [by apply combine32_unfold|].
  split; [apply Z2SF_exact; lia|].
  split; [|split; [|split]].
  - unfold combine32BitValue.
    destruct (Z.eq_dec (high * 65536 + low) 0) as [->|Hne].
    + by exists (S754_zero false).
    + destruct (hundredth_bound (high * 65536 + low)) as (m & e & -> & _);
        [lia|]. by exists (S754_finite false m e).
  - unfold combine32BitValue. intros Heq.
    assert (high * 65536 + low = high' * 65536 + low') as Hsame;
      [|unfold word in *; lia].
    destruct (Z.eq_dec (high * 65536 + low) 0) as [E|Hne];
      destruct (Z.eq_dec (high' * 65536 + low') 0) as [E'|Hne'].
    + lia.
    + rewrite E in Heq.
      destruct (hundredth_bound (high' * 65536 + low')) as (m & e & Hr & _);
        [lia|]. rewrite Hr in Heq. discriminate Heq.
    + rewrite E' in Heq.
      destruct (hundredth_bound (high * 65536 + low)) as (m & e & Hr & _);
        [lia|]. rewrite Hr in Heq. discriminate Heq.
    + destruct (hundredth_bound (high * 65536 + low))
        as (m & e & Hr & _ & Hb); [lia|].
      destruct (hundredth_bound (high' * 65536 + low'))
        as (m' & e' & Hr' & _ & Hb'); [lia|].
      rewrite Hr, Hr' in Heq. injection Heq as <- <-.
      change (2 ^ 60) with 1152921504606846976 in Hb, Hb'.
      change (2 ^ 40) with 1099511627776 in Hb, Hb'. lia.
  - exists (S754_finite false 5764607523034235 (-43)).
    split; [by vm_compute|]. by vm_compute.
  - exists (S754_finite false 4503599627370496 (-52)).
    split; [by vm_compute|]. by vm_compute.
Qed.

Lemma combine32BitValue_spec_witness :
  word 100 /\ word 0 /\ word 1 /\
  exists f, combine32BitValue 100 0 = Ok f /\ nonnegative f = true.
Proof.
  assert (word 100) as H100 by (unfold word; lia).
  assert (word 0) as H0 by (unfold word; lia).
  assert (word 1) as H1 by (unfold word; lia).
  repeat split; try (unfold word; lia).
  exact (proj1 (proj2 (proj2
           (combine32BitValue_spec 100 0 0 1 H100 H0 H0 H1)))).
Defined.

(** ** Status decoding *)

Section Decoders.

Lemma getitem_nth {A} (l : list A) (i : Z) (d : A) :
  0 <= i < Z.of_nat (length l) -> getitem l i = Ok (nth (Z.to_nat i) l d).
Proof.
  intros [Hi0 Hi]. unfold getitem.
  replace (i <? 0) with false by (symmetry; apply Z.ltb_ge; lia).
  replace (i <? 0) with false by (symmetry; apply Z.ltb_ge; lia).
  destruct (l !! Z.to_nat i) as [x|] eqn:E.
  - by rewrite nth_lookup, E.
  - apply lookup_ge_None in E. lia.
Qed.

Lemma getitem_past {A} (l : list A) (i : Z) :
  Z.of_nat (length l) <= i -> getitem l i = Raise IndexError.
Proof.
  intros Hi. unfold getitem.
  replace (i <? 0) with false by (symmetry; apply Z.ltb_ge; lia).
  replace (i <? 0) with false by (symmetry; apply Z.ltb_ge; lia).
  destruct (l !! Z.to_nat i) as [x|] eqn:E; [|done].
  apply lookup_lt_Some in E. lia.
Qed.

(** Masking with a single bit and testing for non-zero reads that bit. *)
Lemma bool_of_int_mask (w k : Z) :
  0 <= k -> bool_of_int (Z.land w (2 ^ k)) = Z.testbit w k.
Proof.
  intros Hk. unfold bool_of_int.
  destruct (Z.testbit w k) eqn:E.
  - apply negb_true_iff, Z.eqb_neq. intros H0.
    assert (Z.testbit (Z.land w (2 ^ k)) k = true) as Hb
      by (rewrite Z.land_spec, E, Z.pow2_bits_true; done).
    rewrite H0, Z.bits_0 in Hb. done.
  - apply negb_false_iff, Z.eqb_eq, Z.bits_inj'. intros n Hn.
    rewrite Z.land_spec, Z.bits_0, Z.pow2_bits_eqb by done.
    destruct (Z.eqb_spec k n) as [->|?]; [by rewrite E|apply andb_false_r].
Qed.

(** A two-bit field: shift, then mask with 3. *)
Lemma field2 (w k : Z) :
  0 <= k ->
  Z.land (Z.shiftr w k) 3 = w / 2 ^ k mod 4 /\ 0 <= w / 2 ^ k mod 4 < 4.
Proof.
  intros Hk. change 3 with (Z.ones 2).
  rewrite Z.land_ones, Z.shiftr_div_pow2 by lia. change (2 ^ 2) with 4.
  split; [done|]. apply Z.mod_pos_bound. lia.
Qed.

(** The low nibble of a word. *)
Lemma nibble (w : Z) : Z.land w 15 = w mod 16 /\ 0 <= w mod 16 < 16.
Proof.
  change 15 with (Z.ones 4). rewrite Z.land_ones by lia.
  change (2 ^ 4) with 16. split; [done|]. apply Z.mod_pos_bound. lia.
Qed.

End Decoders.

(** C3. For every word [w] (indeed every integer),
    [decodeChargingStatus(w)] raises nothing and fills each field from the
    bit layout: [input_voltage_status] is entry [(w >> 14) & 3] of
    [Normal, No power, Higher volt input, Input volt error],
    [charging_status] is entry [(w >> 2) & 3] of
    [No charging, Float, Boost, Equalization], and the ten flags are bits
    13, 12, 11, 10, 9, 8, 7, 4, 1 and 0 (masks 0x2000 ... 0x0001). On
    0x0001 only [running] is set, with [No charging] and [Normal]. *)
Theorem decodeChargingStatus_layout (w : Z) :
  decodeChargingStatus w
  = Ok {| input_voltage_status :=
            nth (Z.to_nat (w / 2 ^ 14 mod 4))
                ["Normal"; "No power"; "Higher volt input";
                 "Input volt error"] "";
          charging_mosfet_short := Z.testbit w 13;
          charging_anti_reverse_short := Z.testbit w 12;
          anti_reverse_short := Z.testbit w 11;
          input_over_current := Z.testbit w 10;
          load_over_current := Z.testbit w 9;
          load_short := Z.testbit w 8;
          load_mosfet_short := Z.testbit w 7;
          pv_input_short := Z.testbit w 4;
          charging_status :=
            nth (Z.to_nat (w / 2 ^ 2 mod 4))
                ["No charging"; "Float"; "Boost"; "Equalization"] "";
          fault := Z.testbit w 1;
          running := Z.testbit w 0 |} /\
  decodeChargingStatus 0x0001
  = Ok {| input_voltage_status := "Normal";
          charging_mosfet_short := false;
          charging_anti_reverse_short := false;
          anti_reverse_short := false;
          input_over_current := false;
          load_over_current := false;
          load_short := false;
          load_mosfet_short := false;
          pv_input_short := false;
          charging_status := "No charging";
          fault := false;
          running := true |}.
Proof.
  split; [|done]. unfold decodeChargingStatus.
  destruct (field2 w 14) as [-> H14]; [lia|].
  destruct (field2 w 2) as [-> H2]; [lia|].
  rewrite (getitem_nth INPUT_VOLTAGE_STATUS _ "") by (simpl; lia).
  rewrite (getitem_nth CHARGING_STATUS _ "") by (simpl; lia).
  cbn [bind].
  change 0x2000 with (2 ^ 13). change 0x1000 with (2 ^ 12).
  change 0x0800 with (2 ^ 11). change 0x0400 with (2 ^ 10).
  change 0x0200 with (2 ^ 9). change 0x0100 with (2 ^ 8).
  change 0x0080 with (2 ^ 7). change 0x0010 with (2 ^ 4).
  change 0x0002 with (2 ^ 1). change 0x0001 with (2 ^ 0).
  by rewrite !bool_of_int_mask by lia.
Qed.

(** C4 as stated, refuted: on 0x200C the decoder returns a record whose
    charging status is not [Boost] (bits 2 and 3 are both set, which is
    entry 3 of the table). *)
Lemma decodeChargingStatus_200C_is_not_boost :
  exists r, decodeChargingStatus 0x200C = Ok r /\
            String.eqb (charging_status r) "Boost" = false.
Proof. eexists. split; [by vm_compute|done]. Qed.

(** C4, amended. [decodeChargingStatus(0x200C)] yields
    [charging_status = Equalization] and [charging_mosfet_short = true],
    with [fault] and [running] false; [Boost] is what 0x2008 decodes
    to. *)
Theorem decodeChargingStatus_200C :
  (exists r, decodeChargingStatus 0x200C = Ok r /\
             charging_status r = "Equalization" /\
             charging_mosfet_short r = true /\
             fault r = false /\ running r = false) /\
  (exists r, decodeChargingStatus 0x2008 = Ok r /\
             charging_status r = "Boost" /\
             charging_mosfet_short r = true /\
             fault r = false /\ running r = false).
Proof. split; eexists; (split; [by vm_compute|done]). Qed.

(** What [decodeBatteryStatus] does on any integer. *)
Lemma decodeBatteryStatus_cases (w : Z) :
  decodeBatteryStatus w
  = match VOLTAGE_STATUS !! Z.to_nat (w mod 16) with
    | Some vs =>
        Ok {| voltage_status := vs;
              temperature_status :=
                nth (Z.to_nat (w / 2 ^ 4 mod 16 mod 3)) TEMPERATURE_STATUS "";
              internal_resistance_abnormal := Z.testbit w 8;
              wrong_voltage_identification := Z.testbit w 15 |}
    | None => Raise IndexError
    end.
Proof.
  unfold decodeBatteryStatus.
  destruct (nibble w) as [-> Hn].
  destruct (nibble (Z.shiftr w 4)) as [-> Hn4].
  rewrite Z.shiftr_div_pow2 in * by lia.
  assert (0 <= w / 2 ^ 4 mod 16 mod 3 < 3) as H3
    by (apply Z.mod_pos_bound; lia).
  destruct (VOLTAGE_STATUS !! Z.to_nat (w mod 16)) as [vs|] eqn:E.
  - rewrite (getitem_nth VOLTAGE_STATUS _ "")
      by (apply lookup_lt_Some in E; lia).
    rewrite nth_lookup, E. cbn [bind default].
    rewrite (getitem_nth TEMPERATURE_STATUS _ "") by (simpl; lia).
    cbn [bind]. change 0x0100 with (2 ^ 8). change 0x8000 with (2 ^ 15).
    by rewrite !bool_of_int_mask by lia.
  - rewrite getitem_past; [done|]. apply lookup_ge_None in E. lia.
Qed.

(** C7 as stated, refuted: not every 16-bit word is decoded. On 0x8105
    the low four bits are 5, past the end of the five-entry table, and the
    decoder raises [IndexError] instead of returning a record. *)
Lemma decodeBatteryStatus_8105_raises :
  word 0x8105 /\ decodeBatteryStatus 0x8105 = Raise IndexError.
Proof. split; [unfold word; lia|done]. Qed.

(** C7, amended. For every word [w] (indeed every integer) whose low
    four bits are at most 4, [decodeBatteryStatus(w)] takes
    [voltage_status] as entry [w & 0x0F] of the five-entry table
    [Normal, Overvolt, Under Volt, Low Volt Disconnect, Fault],
    [temperature_status] as entry [((w >> 4) & 0x0F) % 3] of
    [Normal, Over Temp, Low Temp], and reads the two flags from bits 8 and
    15 (masks 0x0100 and 0x8000). When the low four bits are 5 to 15 the
    lookup runs past the table and the decoder raises [IndexError]. On
    0x0000 it yields [Normal], [Normal], both flags false. *)
Theorem decodeBatteryStatus_layout (w : Z) :
  decodeBatteryStatus w
  = match ["Normal"; "Overvolt"; "Under Volt"; "Low Volt Disconnect";
           "Fault"] !! Z.to_nat (w mod 16) with
    | Some vs =>
        Ok {| voltage_status := vs;
              temperature_status :=
                nth (Z.to_nat (w / 2 ^ 4 mod 16 mod 3))
                    ["Normal"; "Over Temp"; "Low Temp"] "";
              internal_resistance_abnormal := Z.testbit w 8;
              wrong_voltage_identification := Z.testbit w 15 |}
    | None => Raise IndexError
    end /\
  (Z.land w 0x0F <= 4 -> exists r, decodeBatteryStatus w = Ok r) /\
  (5 <= Z.land w 0x0F -> decodeBatteryStatus w = Raise IndexError) /\
  decodeBatteryStatus 0x0000
  = Ok {| voltage_status := "Normal";
          temperature_status := "Normal";
          internal_resistance_abnormal := false;
          wrong_voltage_identification := false |}.
Proof.
  split; [apply decodeBatteryStatus_cases|]. split; [|split; [|done]].
  - intros Hn. rewrite decodeBatteryStatus_cases.
    destruct (nibble w) as [Hw Hr]. rewrite Hw in Hn.
    destruct (VOLTAGE_STATUS !! Z.to_nat (w mod 16)) as [vs|] eqn:E;
      [by eexists|].
    apply lookup_ge_None in E. simpl in E. lia.
  - intros Hn. unfold decodeBatteryStatus.
    rewrite getitem_past; [done|]. simpl. lia.
Qed.

(** C10. [decodeBatteryStatus] returns a record exactly when the low four
    bits of the word are at most 4: on every 16-bit word whose low nibble
    is between 5 and 15 the voltage-status lookup runs past its five-entry
    table and the decoder raises [IndexError]. *)
Theorem decodeBatteryStatus_partial (w : Z) :
  word w -> 5 <= Z.land w 0x0F <= 15 ->
  decodeBatteryStatus w = Raise IndexError /\
  (forall v, word v ->
     (exists r, decodeBatteryStatus v = Ok r) <-> Z.land v 0x0F <= 4).
Proof.
  intros _ Hw. split.
  - unfold decodeBatteryStatus. rewrite getitem_past; [done|]. simpl. lia.
  - intros v _. rewrite decodeBatteryStatus_cases.
    destruct (nibble v) as [-> Hn].
    destruct (VOLTAGE_STATUS !! Z.to_nat (v mod 16)) as [vs|] eqn:E.
    + apply lookup_lt_Some in E. simpl in E. split; [lia|by eexists].
    + apply lookup_ge_None in E. simpl in E.
      split; [by intros [? ?]|lia].
Qed.

Lemma decodeBatteryStatus_partial_witness :
  word 0x0005 /\ 5 <= Z.land 0x0005 0x0F <= 15 /\
  decodeBatteryStatus 0x0005 = Raise IndexError.
Proof.
  assert (word 0x0005) as Hw by (unfold word; lia).
  assert (5 <= Z.land 0x0005 0x0F <= 15) as Hn
    by (change (Z.land 0x0005 0x0F) with 5; lia).
  split; [exact Hw|]. split; [exact Hn|].
  exact (proj1 (decodeBatteryStatus_partial 0x0005 Hw Hn)).
Defined.

(** ** Coil writes *)

(** C8. Whatever the outcomes of the three coil writes, [setLoadControl]
    puts all three on the wire, in order (manual control at 0x0002, test
    mode at 0x0005, force on/off at 0x0006), never stopping at a failure,
    and returns the conjunction of the three outcomes: [True] exactly when
    all three writes succeed. *)
Theorem setLoadControl_writes_all (ok1 ok2 ok3 : bool)
  (manual_on test_mode force_on : bool)
  (rest : list reply) (log : list request) :
  setLoadControl manual_on test_mode force_on
    {| replies := write_outcome ok1 :: write_outcome ok2
                  :: write_outcome ok3 :: rest;
       sent := log |}
  = (Ok (ok1 && ok2 && ok3),
     {| replies := rest;
        sent := log ++ [WriteBit 0x0002 manual_on; WriteBit 0x0005 test_mode;
                        WriteBit 0x0006 force_on] |}) /\
  (ok1 && ok2 && ok3 = true <-> ok1 = true /\ ok2 = true /\ ok3 = true).
Proof.
  split.
  - destruct ok1, ok2, ok3; cbn; by rewrite <- !app_assoc.
  - rewrite !andb_true_iff. tauto.
Qed.

(** ** Single-register read *)

Section ReadReg.

Lemma binary_round_aux_sign (m e : Z) (l : location) :
  unsigned_or_nan (binary_round_aux prec emax false m e l).
Proof.
  unfold binary_round_aux.
  destruct (shr_fexp prec emax m e l) as [mrs1 e1].
  destruct (shr_fexp _ _ _ e1 loc_Exact) as [mrs2 e2].
  destruct (shr_m mrs2); [done| |done]. by destruct (e2 <=? emax - prec).
Qed.

Lemma Z2SF_sign (n : Z) : 0 <= n -> unsigned_or_nan (Z2SF n).
Proof.
  destruct n as [|p|p]; [done| |lia]. intros _.
  unfold Z2SF, binary_normalize, binary_round.
  destruct (shl_align p 0 _) as [mz ez]. apply binary_round_aux_sign.
Qed.

Lemma SFdiv_sign (x y : spec_float) :
  unsigned_or_nan x -> unsigned_or_nan y ->
  unsigned_or_nan (SFdiv prec emax x y).
Proof.
  destruct x as [sx|sx| |sx mx ex], y as [sy|sy| |sy my ey];
    cbn [unsigned_or_nan SFdiv]; intros Hx Hy; subst; try done.
  destruct (SFdiv_core_binary _ _ _ _ _ _) as [[mz ez] lz].
  apply binary_round_aux_sign.
Qed.

(** Nothing unsigned equals [-1]. *)
Lemma minus_one_differs (f : spec_float) :
  unsigned_or_nan f ->
  SFeqb (Z2SF (-1)) f = false /\ SFeqb f (Z2SF (-1)) = false.
Proof.
  change (Z2SF (-1)) with (S754_finite true 4503599627370496 (-52)).
  by destruct f as [s|s| |s m e]; cbn [unsigned_or_nan]; intros Hf; subst.
Qed.

End ReadReg.

(** C9 as stated, refuted: when the transaction fails, [readReg] does not
    return an error of a type of its own; it returns the number [-1]. *)
Lemma readReg_failure_is_a_number :
  (readReg 0x3100 2 4 {| replies := [Fault IOError]; sent := [] |}).1
  = Ok (Int (-1)).
Proof. done. Qed.

(** C9, amended. For a register address of 16 bits, at most ten decimals
    and function code 3 or 4, [readReg] sends one request and returns the
    raw word scaled by 10^decimals when the transaction succeeds; when it
    fails with an I/O error (or times out) it returns the number [-1], an
    in-band value rather than a typed error; an exception of another kind
    is not caught and leaves [readReg]. For any other address, number of
    decimals or function code the library raises [ValueError] before
    anything is sent, and [readReg] lets it out. The value [-1] equals no
    valid reading: the scaled value of a 16-bit word is never negative. *)
Theorem readReg_outcomes (register : Z) (decimals : nat) (function_code : Z)
  (rest : list reply) (log : list request) :
  let after := fun rs =>
    {| replies := rs;
       sent := log ++ [ReadRegister register decimals function_code] |} in
  (if (0 <=? register) && (register <=? 65535) && (decimals <=? 10)%nat
      && ((function_code =? 3) || (function_code =? 4))
   then
     (forall raw,
        readReg register decimals function_code
          {| replies := Words [raw] :: rest; sent := log |}
        = (Ok (scaled raw decimals), after rest)) /\
     readReg register decimals function_code
       {| replies := Fault IOError :: rest; sent := log |}
     = (Ok (Int (-1)), after rest) /\
     readReg register decimals function_code {| replies := []; sent := log |}
     = (Ok (Int (-1)), after []) /\
     (forall e, e <> IOError ->
        readReg register decimals function_code
          {| replies := Fault e :: rest; sent := log |}
        = (Raise e, after rest))
   else
     forall b, readReg register decimals function_code b
               = (Raise ValueError, b)) /\
  (forall raw, word raw ->
     number_eqb (Int (-1)) (scaled raw decimals) = false /\
     number_eqb (scaled raw decimals) (Int (-1)) = false).
Proof.
  cbv zeta. split.
  - change ((0 <=? register) && (register <=? 65535) && (decimals <=? 10)%nat
            && ((function_code =? 3) || (function_code =? 4)))
      with (accepts_read register decimals function_code).
    unfold readReg, read_register.
    destruct (accepts_read register decimals function_code); [|done].
    repeat split; try done. intros e He. by destruct e.
  - intros raw Hraw. split.
    + destruct decimals; cbn [scaled number_eqb]; [unfold word in *; lia|].
      apply minus_one_differs, SFdiv_sign; apply Z2SF_sign;
        [unfold word in *|]; lia.
    + destruct decimals; cbn [scaled number_eqb]; [unfold word in *; lia|].
      apply minus_one_differs, SFdiv_sign; apply Z2SF_sign;
        [unfold word in *|]; lia.
Qed.

(** ** Snapshots *)

Section Snapshots.

Lemma getitem_lookup {A} (l : list A) (i : nat) (x : A) :
  l !! i = Some x -> getitem l (Z.of_nat i) = Ok x.
Proof.
  intros Hx. unfold getitem.
  replace (Z.of_nat i <? 0) with false by (symmetry; apply Z.ltb_ge; lia).
  replace (Z.of_nat i <? 0) with false by (symmetry; apply Z.ltb_ge; lia).
  by rewrite Nat2Z.id, Hx.
Qed.

Lemma centi_ok (regs : list Z) (i : nat) :
  Forall word regs -> (i < length regs)%nat ->
  exists f, centi regs (Z.of_nat i) = Ok f.
Proof.
  intros Hw Hi. destruct (lookup_lt_is_Some_2 regs i Hi) as [x Hx].
  pose proof (Forall_lookup_1 _ _ _ _ Hw Hx) as Hwx.
  unfold centi. rewrite (getitem_lookup _ _ _ Hx). cbn [bind].
  unfold int_truediv_float. rewrite float_of_int_small; [by eexists|].
  unfold word in Hwx. change (2 ^ 53) with 9007199254740992. lia.
Qed.

Lemma pair32_ok (regs : list Z) (i j : nat) :
  Forall word regs -> (i < length regs)%nat -> (j < length regs)%nat ->
  exists f, pair32 regs (Z.of_nat i) (Z.of_nat j) = Ok f.
Proof.
  intros Hw Hi Hj.
  destruct (lookup_lt_is_Some_2 regs i Hi) as [lo Hlo].
  destruct (lookup_lt_is_Some_2 regs j Hj) as [hi Hhi].
  unfold pair32.
  rewrite (getitem_lookup _ _ _ Hlo), (getitem_lookup _ _ _ Hhi). cbn [bind].
  rewrite combine32_unfold; [by eexists| |].
  - by apply (Forall_lookup_1 _ _ _ _ Hw Hlo).
  - by apply (Forall_lookup_1 _ _ _ _ Hw Hhi).
Qed.

(** Peel the fields of a dict literal off, one successful decoding at a
    time. *)
Ltac decode_fields Hw Hlen :=
  repeat match goal with
    | |- context [bind (centi ?r (Z.of_nat ?i)) _] =>
        let f := fresh "f" in
        destruct (centi_ok r i) as [f ->]; [exact Hw|rewrite Hlen; lia|];
        cbn [bind]
    | |- context [bind (pair32 ?r (Z.of_nat ?i) (Z.of_nat ?j)) _] =>
        let f := fresh "f" in
        destruct (pair32_ok r i j) as [f ->];
        [exact Hw|rewrite Hlen; lia|rewrite Hlen; lia|];
        cbn [bind]
    end.

Lemma rated_of_regs_ok (regs : list Z) :
  length regs = 5%nat -> Forall word regs ->
  exists d, rated_of_regs regs = Ok d.
Proof.
  intros Hlen Hw. unfold rated_of_regs.
  change 0 with (Z.of_nat 0). change 1 with (Z.of_nat 1).
  change 2 with (Z.of_nat 2). change 3 with (Z.of_nat 3).
  change 4 with (Z.of_nat 4).
  decode_fields Hw Hlen. by eexists.
Qed.

Lemma current_of_regs_ok (regs : list Z) :
  length regs = 20%nat -> Forall word regs ->
  exists d, current_of_regs regs = Ok d.
Proof.
  intros Hlen Hw. unfold current_of_regs.
  change 0 with (Z.of_nat 0). change 1 with (Z.of_nat 1).
  change 2 with (Z.of_nat 2). change 3 with (Z.of_nat 3).
  change 4 with (Z.of_nat 4). change 5 with (Z.of_nat 5).
  change 6 with (Z.of_nat 6). change 7 with (Z.of_nat 7).
  change 12 with (Z.of_nat 12). change 13 with (Z.of_nat 13).
  change 14 with (Z.of_nat 14). change 15 with (Z.of_nat 15).
  change 16 with (Z.of_nat 16). change 17 with (Z.of_nat 17).
  change 18 with (Z.of_nat 18). change 19 with (Z.of_nat 19).
  decode_fields Hw Hlen. by eexists.
Qed.

Lemma stats_of_regs_ok (regs : list Z) :
  length regs = 20%nat -> Forall word regs ->
  exists d, stats_of_regs regs = Ok d.
Proof.
  intros Hlen Hw. unfold stats_of_regs.
  change 0 with (Z.of_nat 0). change 1 with (Z.of_nat 1).
  change 2 with (Z.of_nat 2). change 3 with (Z.of_nat 3).
  change 4 with (Z.of_nat 4). change 5 with (Z.of_nat 5).
  change 6 with (Z.of_nat 6). change 7 with (Z.of_nat 7).
  change 8 with (Z.of_nat 8). change 9 with (Z.of_nat 9).
  change 10 with (Z.of_nat 10). change 11 with (Z.of_nat 11).
  change 12 with (Z.of_nat 12). change 13 with (Z.of_nat 13).
  change 14 with (Z.of_nat 14). change 15 with (Z.of_nat 15).
  change 16 with (Z.of_nat 16). change 17 with (Z.of_nat 17).
  change 18 with (Z.of_nat 18). change 19 with (Z.of_nat 19).
  decode_fields Hw Hlen. by eexists.
Qed.

(** A dict literal is built whole or not at all. *)
Ltac all_fields :=
  repeat match goal with
    | |- bind ?m _ = Ok _ -> _ => destruct m; cbn [bind]; [|discriminate]
    end;
  intros [= <-]; rewrite !dom_insert_L, dom_empty_L; reflexivity.

Lemma rated_of_regs_dom (regs : list Z) (d : reading) :
  rated_of_regs regs = Ok d -> dom d = RATED_KEYS.
Proof. unfold rated_of_regs. all_fields. Qed.

Lemma current_of_regs_dom (regs : list Z) (d : reading) :
  current_of_regs regs = Ok d -> dom d = CURRENT_KEYS.
Proof. unfold current_of_regs. all_fields. Qed.

Lemma stats_of_regs_dom (regs : list Z) (d : reading) :
  stats_of_regs regs = Ok d -> dom d = STATS_KEYS.
Proof. unfold stats_of_regs. all_fields. Qed.

Lemma snapshot_cases (address : Z) (count : nat)
  (decode : list Z -> result reading) (b : bus) :
  (snapshot address count decode b).1 = Ok None \/
  exists regs d,
    decode regs = Ok d /\ (snapshot address count decode b).1 = Ok (Some d).
Proof.
  cbv [snapshot try_except bindM read_registers transact lift ret raise].
  destruct (replies b) as [|[ws| |e] rs]; cbn [fst]; try (by left).
  - destruct (decide (length ws = count)); [|by left].
    destruct (decode ws) as [d|e'] eqn:E; [right; by exists ws, d|].
    left. by destruct e'.
  - left. by destruct e.
Qed.

Lemma snapshot_ok (address : Z) (count : nat)
  (decode : list Z -> result reading) (ws : list Z) (d : reading)
  (rest : list reply) (log : list request) :
  length ws = count -> decode ws = Ok d ->
  snapshot address count decode {| replies := Words ws :: rest; sent := log |}
  = (Ok (Some d),
     {| replies := rest; sent := log ++ [ReadRegisters address count 4] |}).
Proof.
  intros Hlen Hd.
  cbv [snapshot try_except bindM read_registers transact lift ret raise].
  cbn [replies sent].
  destruct (decide (length ws = count)); [|done]. by rewrite Hd.
Qed.

Lemma snapshot_fault (address : Z) (count : nat)
  (decode : list Z -> result reading) (e : exn)
  (rest : list reply) (log : list request) :
  snapshot address count decode {| replies := Fault e :: rest; sent := log |}
  = (Ok None,
     {| replies := rest; sent := log ++ [ReadRegisters address count 4] |}).
Proof. by destruct e. Qed.

Lemma readRatedData_snapshot :
  readRatedData = snapshot 0x3000 5 rated_of_regs.
Proof. reflexivity. Qed.

Lemma readCurrent_snapshot : readCurrent = snapshot 0x3100 20 current_of_regs.
Proof. reflexivity. Qed.

Lemma readStats_snapshot : readStats = snapshot 0x3300 20 stats_of_regs.
Proof. reflexivity. Qed.

(** Whatever the device does, a snapshot is [None] or a reading with all
    its fields. *)
Lemma snapshot_whole (address : Z) (count : nat)
  (decode : list Z -> result reading) (keys : gset string) (b : bus) :
  (forall regs d, decode regs = Ok d -> dom d = keys) ->
  (snapshot address count decode b).1 = Ok None \/
  exists d, (snapshot address count decode b).1 = Ok (Some d) /\ dom d = keys.
Proof.
  intros Hdom.
  destruct (snapshot_cases address count decode b) as [?|(regs & d & Hd & ?)];
    [by left|right]. exists d. split; [done|]. by apply (Hdom regs).
Qed.

Lemma snapshots_cover (b : bus) :
  ((readRatedData b).1 = Ok None \/
   exists d, (readRatedData b).1 = Ok (Some d) /\ dom d = RATED_KEYS) /\
  ((readCurrent b).1 = Ok None \/
   exists d, (readCurrent b).1 = Ok (Some d) /\ dom d = CURRENT_KEYS) /\
  ((readStats b).1 = Ok None \/
   exists d, (readStats b).1 = Ok (Some d) /\ dom d = STATS_KEYS).
Proof.
  rewrite readRatedData_snapshot, readCurrent_snapshot, readStats_snapshot.
  split; [|split].
  - apply snapshot_whole, rated_of_regs_dom.
  - apply snapshot_whole, current_of_regs_dom.
  - apply snapshot_whole, stats_of_regs_dom.
Qed.

Lemma keys_not_empty (d : reading) (keys : gset string) (k : string) :
  k ∈ keys -> dom d = keys -> d <> ∅.
Proof. intros Hk Hd ->. rewrite dom_empty_L in Hd. set_solver. Qed.

End Snapshots.

(** C2. Each snapshot read ([readRatedData], [readCurrent], [readStats])
    returns [None] when its block-read transaction fails (an exception
    from the instrument, or no answer at all), and a mapping
    with every field of its kind when the transaction delivers the words;
    whatever the device answers, the result is [None] or a mapping with
    the full key set, never a mapping with keys missing, and no exception
    leaves the method. *)
Theorem snapshots_all_or_nothing (ws5 ws20 : list Z)
  (rest : list reply) (log : list request) :
  length ws5 = 5%nat -> length ws20 = 20%nat ->
  Forall word ws5 -> Forall word ws20 ->
  let bus_with := fun r => {| replies := r :: rest; sent := log |} in
  let after := fun a n =>
    {| replies := rest; sent := log ++ [ReadRegisters a n 4] |} in
  (exists d, readRatedData (bus_with (Words ws5))
             = (Ok (Some d), after 0x3000 5%nat) /\ dom d = RATED_KEYS) /\
  (exists d, readCurrent (bus_with (Words ws20))
             = (Ok (Some d), after 0x3100 20%nat) /\ dom d = CURRENT_KEYS) /\
  (exists d, readStats (bus_with (Words ws20))
             = (Ok (Some d), after 0x3300 20%nat) /\ dom d = STATS_KEYS) /\
  (forall e,
     readRatedData (bus_with (Fault e)) = (Ok None, after 0x3000 5%nat) /\
     readCurrent (bus_with (Fault e)) = (Ok None, after 0x3100 20%nat) /\
     readStats (bus_with (Fault e)) = (Ok None, after 0x3300 20%nat)) /\
  (let silent := {| replies := []; sent := log |} in
   (readRatedData silent).1 = Ok None /\
   (readCurrent silent).1 = Ok None /\
   (readStats silent).1 = Ok None) /\
  (forall b,
     ((readRatedData b).1 = Ok None \/
      exists d, (readRatedData b).1 = Ok (Some d) /\ dom d = RATED_KEYS) /\
     ((readCurrent b).1 = Ok None \/
      exists d, (readCurrent b).1 = Ok (Some d) /\ dom d = CURRENT_KEYS) /\
     ((readStats b).1 = Ok None \/
      exists d, (readStats b).1 = Ok (Some d) /\ dom d = STATS_KEYS)).
Proof.
  intros H5 H20 Hw5 Hw20. cbv zeta.
  rewrite readRatedData_snapshot, readCurrent_snapshot, readStats_snapshot.
  destruct (rated_of_regs_ok ws5 H5 Hw5) as [dr Hdr].
  destruct (current_of_regs_ok ws20 H20 Hw20) as [dc Hdc].
  destruct (stats_of_regs_ok ws20 H20 Hw20) as [ds Hds].
  repeat split.
  - exists dr. split; [by apply snapshot_ok|by apply (rated_of_regs_dom ws5)].
  - exists dc.
    split; [by apply snapshot_ok|by apply (current_of_regs_dom ws20)].
  - exists ds. split; [by apply snapshot_ok|by apply (stats_of_regs_dom ws20)].
  - apply snapshot_fault.
  - apply snapshot_fault.
  - apply snapshot_fault.
  - apply snapshot_whole, rated_of_regs_dom.
  - apply snapshot_whole, current_of_regs_dom.
  - apply snapshot_whole, stats_of_regs_dom.
Qed.

Lemma snapshots_all_or_nothing_witness :
  let ws5 := [1800; 2000; 52000; 0; 1200] in
  let ws20 := [1850; 420; 7770; 0; 1320; 580; 7656; 0; 0; 0; 0; 0;
               1318; 150; 1977; 0; 2500; 2700; 2700; 8600] in
  length ws5 = 5%nat /\ length ws20 = 20%nat /\
  Forall word ws5 /\ Forall word ws20 /\
  exists d,
    readCurrent {| replies := [Words ws20]; sent := [] |}
    = (Ok (Some d),
       {| replies := []; sent := [] ++ [ReadRegisters 0x3100 20 4] |}) /\
    dom d = CURRENT_KEYS.
Proof.
  cbv zeta.
  assert (Forall word [1800; 2000; 52000; 0; 1200]) as Hw5
    by (repeat (apply Forall_cons_2; [unfold word; lia|]); apply Forall_nil_2).
  assert (Forall word [1850; 420; 7770; 0; 1320; 580; 7656; 0; 0; 0; 0; 0;
                       1318; 150; 1977; 0; 2500; 2700; 2700; 8600]) as Hw20
    by (repeat (apply Forall_cons_2; [unfold word; lia|]); apply Forall_nil_2).
  split; [reflexivity|]. split; [reflexivity|].
  split; [exact Hw5|]. split; [exact Hw20|].
  exact (proj1 (proj2 (snapshots_all_or_nothing
                         [1800; 2000; 52000; 0; 1200]
                         [1850; 420; 7770; 0; 1320; 580; 7656; 0; 0; 0; 0; 0;
                          1318; 150; 1977; 0; 2500; 2700; 2700; 8600]
                         [] [] eq_refl eq_refl Hw5 Hw20))).
Defined.

(** ** Banks the device does not serve *)

(** C6 as stated, refuted: what comes back for an unsupported bank is an
    empty mapping, returned as any successful reading would be, and the
    truth test that callers apply to a snapshot takes it for the [None] of
    a failed read. *)
Lemma unsupported_bank_is_empty_reading :
  (readAllSettings {| replies := []; sent := [] |}).1 = Ok (Some ∅) /\
  (readSystemStatus {| replies := []; sent := [] |}).1 = Ok (Some ∅) /\
  falsy (Some ∅) = falsy None.
Proof. done. Qed.

(** C6, amended. [readAllSettings] and [readSystemStatus] put nothing on
    the wire and always return the empty mapping. That is not an error
    and not the [None] of a failed read (an identity test tells the two
    apart), and no snapshot read returns it; but it is an ordinary empty
    mapping, not an outcome of its own. *)
Theorem unsupported_banks (b : bus) :
  readAllSettings b = (Ok (Some ∅), b) /\
  readSystemStatus b = (Ok (Some ∅), b) /\
  Some (∅ : reading) <> None /\
  (forall b' d,
     (readRatedData b').1 = Ok (Some d) \/
     (readCurrent b').1 = Ok (Some d) \/
     (readStats b').1 = Ok (Some d) ->
     d <> ∅).
Proof.
  repeat split; try done. intros b' d Hd.
  destruct (snapshots_cover b') as (Hr & Hc & Hs).
  destruct Hd as [Hd|[Hd|Hd]].
  - destruct Hr as [Hr|(d' & Hr & Hk)]; rewrite Hd in Hr; simplify_eq.
    apply (keys_not_empty _ RATED_KEYS "pv_rated_voltage"); [|done].
    unfold RATED_KEYS. set_solver.
  - destruct Hc as [Hc|(d' & Hc & Hk)]; rewrite Hd in Hc; simplify_eq.
    apply (keys_not_empty _ CURRENT_KEYS "PVvolt"); [|done].
    unfold CURRENT_KEYS. set_solver.
  - destruct Hs as [Hs|(d' & Hs & Hk)]; rewrite Hd in Hs; simplify_eq.
    apply (keys_not_empty _ STATS_KEYS "max_pv_voltage_today"); [|done].
    unfold STATS_KEYS. set_solver.
Qed.

(** ** Battery settings *)

Section Settings.

Lemma setitem_ok {A} (l : list A) (i : nat) (y : A) :
  (i < length l)%nat -> setitem l (Z.of_nat i) y = Ok (<[i := y]> l).
Proof.
  intros Hi. unfold setitem.
  replace (Z.of_nat i <? 0) with false by (symmetry; apply Z.ltb_ge; lia).
  replace (0 <=? Z.of_nat i) with true by (symmetry; apply Z.leb_le; lia).
  replace (Z.of_nat i <? Z.of_nat (length l)) with true
    by (symmetry; apply Z.ltb_lt; lia).
  by rewrite Nat2Z.id.
Qed.

(** [int(x * (voltage / 12))] on a register word, for a voltage above 12:
    nothing is raised, and the result is the exact quotient [x * voltage /
    12] cut to an integer, or one less where the binary product falls just
    short of a whole number. *)
Lemma scaled_setting_bound (x v : Z) :
  word x -> 12 < v < 65536 ->
  exists adj y,
    int_truediv v 12 = Ok adj /\ scaled_setting x adj = Ok y /\
    x * v - 12 <= 12 * y <= x * v.
Proof.
  intros Hx Hv. unfold word in Hx.
  (* the quotient *)
  assert (4 <= Zdigits2 v <= 16) as Hdv.
  { split.
    - destruct (Zdigits2_bounds v ltac:(lia)) as (_ & _ & Hh).
      destruct (Z_lt_le_dec (Zdigits2 v) 4) as [Hlt|]; [|done].
      assert (2 ^ Zdigits2 v <= 2 ^ 3) by (apply Z.pow_le_mono_r; lia).
      change (2 ^ 3) with 8 in *. lia.
    - apply Zdigits2_le; [lia|]. change (2 ^ 16) with 65536. lia. }
  destruct (div_round_finite false v 0 12 0)
    as (m & e & Hres & Hm & He & Hval); [lia|lia|..].
  { change (Zdigits2 12) with 4. lia. }
  { change (Zdigits2 12) with 4. lia. }
  change (Zdigits2 12) with 4 in He, Hval.
  set (dv := Zdigits2 v) in *.
  replace (dv + 0 - (4 + 0) - 53) with (dv - 57) in He, Hval by lia.
  replace (53 + 4 - dv) with (57 - dv) in Hval by lia.
  assert (int_truediv v 12 = Ok (S754_finite false m e)) as Hadj.
  { unfold int_truediv.
    replace (v =? 0) with false by (symmetry; apply Z.eqb_neq; lia).
    replace (v <? 0) with false by (symmetry; apply Z.ltb_ge; lia).
    cbn [Z.eqb Z.ltb Z.compare xorb].
    replace (Z.abs v) with v by lia. change (Z.abs 12) with 12.
    destruct (SFdiv_core_binary prec emax v 0 12 0) as [[q ez] l].
    by rewrite Hres. }
  exists (S754_finite false m e).
  destruct (Z.eq_dec x 0) as [->|Hne].
  { exists 0. split; [done|]. split; [done|]. lia. }
  (* the product *)
  unfold scaled_setting, int_mul_float.
  rewrite float_of_int_small by (change (2 ^ 53) with 9007199254740992; lia).
  destruct (Z2SF_pos x) as (mx & -> & Hmx);
    [change (2 ^ 53) with 9007199254740992; lia|].
  assert (0 < Zdigits2 x <= 16) as Hdx.
  { destruct (Zdigits2_bounds x) as (? & _); [lia|].
    split; [done|]. apply Zdigits2_le; [lia|].
    change (2 ^ 16) with 65536. lia. }
  destruct (Zdigits2_bounds x ltac:(lia)) as (_ & Hlx & Hhx).
  set (dx := Zdigits2 x) in *.
  cbn [bind SFmul xorb].
  assert (2 ^ 52 <= Z.pos mx < 2 ^ 53) as Hmx53.
  { rewrite Hmx.
    assert (2 ^ (dx - 1) * 2 ^ (53 - dx) = 2 ^ 52) as <-
      by (rewrite <- pow2_split by lia; f_equal; lia).
    assert (2 ^ dx * 2 ^ (53 - dx) = 2 ^ 53) as <-
      by (rewrite <- pow2_split by lia; f_equal; lia).
    pose proof (pow2_gt0 (53 - dx) ltac:(lia)). nia. }
  assert (Zdigits2 (Z.pos (mx * m)) <= 106) as Hdp.
  { apply Zdigits2_le; [lia|]. rewrite Pos2Z.inj_mul.
    change (2 ^ 106) with (2 ^ 53 * 2 ^ 53). nia. }
  destruct (binary_round_aux_finite false (Z.pos (mx * m))
              (dx - 53 + e) loc_Exact)
    as (mp & ep & -> & Hmp & Hep & Hu); [lia..|].
  cbn [int_of_float]. exists (trunc false mp ep).
  split; [done|]. split; [done|].
  (* the numbers *)
  set (k := Z.max 0 (Zdigits2 (Z.pos (mx * m)) - 53)) in *.
  assert (2 ^ k * 2 ^ 52 <= Z.pos (mx * m)) as Hk52.
  { destruct (Z_le_gt_dec (Zdigits2 (Z.pos (mx * m))) 53).
    - replace k with 0 by lia. change (2 ^ 0) with 1.
      rewrite Pos2Z.inj_mul. nia.
    - destruct (Zdigits2_bounds (Z.pos (mx * m))) as (_ & Hl & _); [lia|].
      replace (Zdigits2 (Z.pos (mx * m)) - 1) with (k + 52) in Hl by lia.
      by rewrite pow2_split in Hl by lia. }
  destruct ep as [|p|p]; [lia|lia|].
  unfold trunc. rewrite Z.shiftr_div_pow2 by lia.
  pose proof (pow2_gt0 k ltac:(lia)) as HB.
  pose proof (pow2_gt0 (Z.pos p) ltac:(lia)) as HN.
  pose proof (pow2_gt0 (Z.neg p - (dx - 53 + e)) ltac:(lia)) as HG.
  pose proof (pow2_gt0 (e - (dv - 57)) ltac:(lia)) as HT.
  pose proof (pow2_gt0 (57 - dv) ltac:(lia)) as HS.
  pose proof (pow2_gt0 (53 - dx) ltac:(lia)) as HX.
  assert (2 ^ (Z.neg p - (dx - 53 + e)) * 2 ^ Z.pos p * 2 ^ (e - (dv - 57))
          = 2 ^ (53 - dx) * 2 ^ (57 - dv)) as HR1.
  { rewrite <- !pow2_split by lia. f_equal. lia. }
  assert (2 ^ 41 <= 2 ^ (57 - dv)) as HS41 by (apply Z.pow_le_mono_r; lia).
  pose proof (div_floor_bounds (Z.pos (mx * m)) (2 ^ k) ltac:(lia) HB) as HMB.
  pose proof (div_floor_bounds (Z.pos mp) (2 ^ Z.pos p) ltac:(lia) HN) as HY.
  rewrite Pos2Z.inj_mul, Hmx in *.
  set (B := 2 ^ k) in *. set (N := 2 ^ Z.pos p) in *.
  set (G2 := 2 ^ (Z.neg p - (dx - 53 + e))) in *.
  set (T := 2 ^ (e - (dv - 57))) in *. set (S := 2 ^ (57 - dv)) in *.
  set (X := 2 ^ (53 - dx)) in *. set (y := Z.pos mp / N) in *.
  set (W := Z.pos m * T) in *.
  change (2 ^ 41) with 2199023255552 in *.
  change (2 ^ 52) with 4503599627370496 in *.
  change (2 ^ 53) with 9007199254740992 in *.
  clear Hres Hadj Hdp Hlx Hhx.
  set (R := Z.pos mp) in *. set (mm := Z.pos m) in *.
  assert (0 < mm) as Hmm by (unfold mm; lia).
  assert (0 <= R) as HR0 by (unfold R; lia).
  assert (0 <= y) as Hy0 by (apply Z.div_pos; lia).
  assert (0 < G2 * T) as HGT by nia.
  set (M := x * X * mm) in *.
  assert (M - B < R * G2 <= M + B) as [HRl HRu] by lia.
  assert (M * T = X * (x * W)) as HMT by (unfold M, W; ring).
  assert (B * T * 4503599627370496 <= M * T) as HBT.
  { replace (B * T * 4503599627370496) with (B * 4503599627370496 * T)
      by ring. apply Z.mul_le_mono_nonneg_r; lia. }
  assert (x * v <= 4294967296) as Hxv by nia.
  assert (x * v * S <= 4294967296 * S) as HxvS
    by (apply Z.mul_le_mono_nonneg_r; lia).
  assert (x * (12 * W) <= x * (v * S + 24)) as HW1
    by (apply Z.mul_le_mono_nonneg_l; lia).
  assert (x * (v * S - 24) <= x * (12 * W)) as HW2
    by (apply Z.mul_le_mono_nonneg_l; lia).
  split.
  - (* from below *)
    assert ((M - B) * T < (y + 1) * (X * S)) as HL.
    { rewrite <- HR1.
      replace ((y + 1) * (G2 * N * T)) with ((y + 1) * N * (G2 * T)) by ring.
      apply Z.lt_trans with (R * (G2 * T)).
      - replace (R * (G2 * T)) with (R * G2 * T) by ring.
        apply Z.mul_lt_mono_pos_r; lia.
      - apply Z.mul_lt_mono_pos_r; lia. }
    assert (X * (x * W * 4503599627370495)
            < X * ((y + 1) * S * 4503599627370496)) as HL2 by lia.
    apply Z.mul_lt_mono_pos_l in HL2; [|done].
    destruct (Z_le_gt_dec (x * v - 12) (12 * y)) as [|Hc]; [done|exfalso].
    assert (12 * (y + 1) <= x * v - 1) as Hc' by lia.
    assert (12 * (y + 1) * S <= (x * v - 1) * S) as Hc''
      by (apply Z.mul_le_mono_nonneg_r; lia).
    lia.
  - (* from above *)
    assert (y * (X * S) <= (M + B) * T) as HU.
    { rewrite <- HR1.
      replace (y * (G2 * N * T)) with (y * N * (G2 * T)) by ring.
      apply Z.le_trans with (R * (G2 * T)).
      - apply Z.mul_le_mono_nonneg_r; lia.
      - replace (R * (G2 * T)) with (R * G2 * T) by ring.
        apply Z.mul_le_mono_nonneg_r; lia. }
    assert (X * (y * S * 4503599627370496)
            <= X * (x * W * 4503599627370497)) as HU2 by lia.
    apply Z.mul_le_mono_pos_l in HU2; [|done].
    destruct (Z_le_gt_dec (12 * y) (x * v)) as [|Hc]; [done|exfalso].
    assert ((x * v + 1) * S <= 12 * y * S) as Hc'
      by (apply Z.mul_le_mono_nonneg_r; lia).
    lia.
Qed.

(** The second case does occur: 108 * 13 / 12 is 117, the product in
    binary64 is just below it. *)
Lemma scaled_setting_one_less :
  exists adj,
    int_truediv 13 12 = Ok adj /\ scaled_setting 108 adj = Ok 116 /\
    108 * 13 = 12 * 117.
Proof. eexists. split; [by vm_compute|]. split; [by vm_compute|done]. Qed.

(** By a whole factor the scaling is exact. *)
Lemma scaled_setting_exact (x k : Z) :
  0 <= x -> 0 < k < 2 ^ 53 -> x * k < 2 ^ 53 ->
  scaled_setting x (Z2SF k) = Ok (x * k).
Proof.
  intros Hx Hk Hxk. unfold scaled_setting, int_mul_float.
  destruct (Z.eq_dec x 0) as [->|Hne].
  - destruct (Z2SF_pos k) as (mk & Hmk & _); [lia|]. by rewrite Hmk.
  - rewrite float_of_int_small by nia. cbn [bind].
    rewrite SFmul_small by lia. apply int_of_float_Z2SF. nia.
Qed.

(** The scaling loop, from any start: every position in the range is
    replaced by its scaled value, the others are left alone. *)
Lemma scale_fold (volt_adjust : spec_float) (f : Z -> Z) (count : nat) :
  forall (start : nat) (l : list Z),
    (start + count <= length l)%nat ->
    (forall i x, (start <= i)%nat -> l !! i = Some x ->
                 scaled_setting x volt_adjust = Ok (f x)) ->
    exists l',
      foldl (fun acc idx => let! l := acc in scale_at volt_adjust l idx)%py
            (Ok l) (Z.of_nat <$> seq start count) = Ok l' /\
      length l' = length l /\
      forall i, l' !! i = if decide (start <= i < start + count)%nat
                          then f <$> l !! i else l !! i.
Proof.
  induction count as [|count IH]; intros start l Hlen Hf.
  - exists l. split; [done|]. split; [done|]. intros i.
    case_decide; [lia|done].
  - destruct (lookup_lt_is_Some_2 l start) as [x Hx]; [lia|].
    cbn [seq fmap list_fmap foldl bind]. unfold scale_at at 2.
    rewrite (getitem_lookup _ _ _ Hx). cbn [bind].
    rewrite (Hf start x) by done. cbn [bind].
    rewrite setitem_ok by lia.
    destruct (IH (S start) (<[start := f x]> l)) as (l' & Hl' & Hlen' & Hlk).
    { rewrite length_insert. lia. }
    { intros i x' Hi. rewrite list_lookup_insert_ne by lia. apply Hf. lia. }
    exists l'. split; [exact Hl'|]. split; [by rewrite Hlen', length_insert|].
    intros i. rewrite Hlk.
    destruct (decide (i = start)) as [->|Hne].
    + rewrite list_lookup_insert_eq by lia.
      repeat case_decide; try lia. by rewrite Hx.
    + rewrite list_lookup_insert_ne by done.
      repeat case_decide; try lia; done.
Qed.

(** The capacity step: index 1 is overwritten unless the capacity is
    100. *)
Lemma capacity_step (settings_list : list Z) (battery_capacity : Z) :
  (1 < length settings_list)%nat ->
  exists l1,
    (if battery_capacity =? 100 then Ok settings_list
     else setitem settings_list 1 battery_capacity) = Ok l1 /\
    length l1 = length settings_list /\
    (battery_capacity = 100 -> l1 = settings_list) /\
    (battery_capacity <> 100 -> l1 !! 1%nat = Some battery_capacity) /\
    (forall i, i <> 1%nat -> l1 !! i = settings_list !! i).
Proof.
  intros Hlen. destruct (Z.eqb_spec battery_capacity 100) as [E|E].
  - exists settings_list. by repeat split.
  - exists (<[1%nat := battery_capacity]> settings_list).
    change 1 with (Z.of_nat 1). rewrite setitem_ok by done.
    split; [done|]. split; [by rewrite length_insert|]. split; [done|].
    split; [intros _; by rewrite list_lookup_insert_eq|].
    intros i Hi. by rewrite list_lookup_insert_ne.
Qed.

End Settings.

Section SettingsWrite.

Lemma valid_word_word (x : Z) : valid_word x = true <-> word x.
Proof. unfold valid_word, word. rewrite andb_true_iff. lia. Qed.

Lemma forallb_valid_word (l : list Z) :
  forallb valid_word l = true <-> Forall word l.
Proof.
  induction l as [|x l IH]; [split; [intros _; apply Forall_nil_2|done]|].
  cbn [forallb]. rewrite andb_true_iff, IH, valid_word_word.
  split; [intros [? ?]; by apply Forall_cons_2|].
  intros H. by apply Forall_cons_1 in H.
Qed.

(** The block write of fifteen settings goes out when they all fit a
    register, and is refused otherwise. *)
Lemma accepts_write_settings (values : list Z) :
  length values = 15%nat ->
  accepts_write 0x9000 values = forallb valid_word values.
Proof. intros Hlen. unfold accepts_write. by rewrite Hlen. Qed.

(** A scaled register word is never negative. *)
Lemma scaled_setting_nonneg (x v : Z) (adj : spec_float) (y : Z) :
  word x -> 12 < v < 65536 ->
  int_truediv v 12 = Ok adj -> scaled_setting x adj = Ok y -> 0 <= y.
Proof.
  intros Hx Hv Hadj Hy.
  destruct (scaled_setting_bound x v Hx Hv) as (adj' & y' & Hadj' & Hy' & Hb).
  rewrite Hadj in Hadj'. injection Hadj' as <-.
  rewrite Hy in Hy'. injection Hy' as <-.
  destruct (Z.eq_dec x 0) as [->|Hne].
  - by destruct adj as [s|s| |s m e]; vm_compute in Hy; simplify_eq.
  - unfold word in Hx. nia.
Qed.

End SettingsWrite.

(** C5 as stated, refuted, on both counts. The scaled value is not
    always the exact product cut to an integer: at 13 V the setting 1620
    becomes 1754, while 1620 * 13 / 12 is 1755 exactly. And not every
    list is written: at 24 V the setting 40000 becomes 80000, which no
    register holds, so nothing is sent and [ValueError] is raised. *)
Lemma setBatterySettings_not_the_exact_scaling :
  adjusted_settings BATTERY_LEAD_ACID 100 13
  = Ok [0; 300; 300; 1754; 1625; 1625; 1581; 1560; 1495; 1765; 1365; 1321;
        1300; 1202; 1148] /\
  1620 * 13 = 12 * 1755 /\
  setBatterySettings
    [0; 300; 300; 40000; 1500; 1500; 1460; 1440; 1380; 1630; 1260; 1220;
     1200; 1110; 1060] 100 24 {| replies := [Ack]; sent := [] |}
  = (Raise ValueError, {| replies := [Ack]; sent := [] |}).
Proof. split; [by vm_compute|]. split; [done|by vm_compute]. Qed.

(** C5, amended. For a list of 15 register words and a voltage that is
    itself a word, [setBatterySettings] derives a sequence of 15 values
    from the list: index 1 is the capacity unless the capacity is 100;
    with a voltage above 12 every element from index 3 on is
    [int(x * (voltage / 12))], the binary64 product truncated, which is
    [x * voltage / 12] cut to an integer or, where binary rounding falls
    just short of a whole number, one less (and exactly [x * k] when the
    voltage is [12 * k]); with a voltage of 12 or less those elements are
    unchanged; indices 0 and 2 are never touched. When every value of the
    sequence fits a 16-bit register, it goes out in one block write at
    0x9000 and the result is 0 when the write succeeds, -2 when it fails.
    Otherwise nothing is sent and [ValueError] leaves the method. The
    values all fit exactly when the capacity is 100 or a word and every
    scaled value is below 65536, which holds whenever [x * voltage] is
    below [12 * 65536] for the settings from index 3 on. For the
    lead-acid list with capacity 150 and voltage 24, index 1 becomes 150,
    indices 3 to 14 are doubled (1620 becomes 3240) and the sequence is
    written. *)
Theorem setBatterySettings_sequence (settings_list : list Z)
  (battery_capacity battery_voltage : Z) (ok : bool)
  (rest : list reply) (log : list request) :
  length settings_list = 15%nat -> Forall word settings_list ->
  word battery_voltage ->
  exists new_settings,
    adjusted_settings settings_list battery_capacity battery_voltage
    = Ok new_settings /\
    (Forall word new_settings ->
     setBatterySettings settings_list battery_capacity battery_voltage
       {| replies := write_outcome ok :: rest; sent := log |}
     = (Ok (if ok then 0 else -2),
        {| replies := rest;
           sent := log ++ [WriteRegisters 0x9000 new_settings] |})) /\
    (~ Forall word new_settings ->
     forall b,
       setBatterySettings settings_list battery_capacity battery_voltage b
       = (Raise ValueError, b)) /\
    (Forall word new_settings <->
     (battery_capacity = 100 \/ word battery_capacity) /\
     forall i y, (3 <= i)%nat -> new_settings !! i = Some y -> y < 65536) /\
    ((battery_voltage <= 12 \/
      forall i x, (3 <= i)%nat -> settings_list !! i = Some x ->
                  x * battery_voltage < 12 * 65536) ->
     forall i y, (3 <= i)%nat -> new_settings !! i = Some y -> y < 65536) /\
    length new_settings = 15%nat /\
    new_settings !! 0%nat = settings_list !! 0%nat /\
    new_settings !! 2%nat = settings_list !! 2%nat /\
    (battery_capacity <> 100 ->
     new_settings !! 1%nat = Some battery_capacity) /\
    (battery_capacity = 100 ->
     new_settings !! 1%nat = settings_list !! 1%nat) /\
    (battery_voltage <= 12 ->
     forall i, (3 <= i)%nat -> new_settings !! i = settings_list !! i) /\
    (12 < battery_voltage ->
     exists volt_adjust,
       int_truediv battery_voltage 12 = Ok volt_adjust /\
       forall i x, (3 <= i)%nat -> settings_list !! i = Some x ->
         exists y, scaled_setting x volt_adjust = Ok y /\
                   new_settings !! i = Some y /\
                   x * battery_voltage - 12 <= 12 * y
                     <= x * battery_voltage) /\
    (forall k, 1 < k -> battery_voltage = 12 * k ->
       forall i x, (3 <= i)%nat -> settings_list !! i = Some x ->
         new_settings !! i = Some (x * k)) /\
    adjusted_settings BATTERY_LEAD_ACID 150 24
    = Ok [0; 150; 300; 3240; 3000; 3000; 2920; 2880; 2760; 3260; 2520; 2440;
          2400; 2220; 2120] /\
    setBatterySettings BATTERY_LEAD_ACID 150 24
      {| replies := [Ack]; sent := [] |}
    = (Ok 0,
       {| replies := [];
          sent := [WriteRegisters 0x9000
                     [0; 150; 300; 3240; 3000; 3000; 2920; 2880; 2760; 3260;
                      2520; 2440; 2400; 2220; 2120]] |}).
Proof.
  intros Hlen Hw Hv.
  destruct (capacity_step settings_list battery_capacity)
    as (l1 & Hl1 & Hlen1 & Hsame & Hcap & Hother); [lia|].
  assert (exists new_settings,
    adjusted_settings settings_list battery_capacity battery_voltage
    = Ok new_settings /\
    length new_settings = 15%nat /\
    (forall i, (i < 3)%nat -> new_settings !! i = l1 !! i) /\
    (battery_voltage <= 12 ->
     forall i, (3 <= i)%nat -> new_settings !! i = settings_list !! i) /\
    (12 < battery_voltage ->
     exists volt_adjust,
       int_truediv battery_voltage 12 = Ok volt_adjust /\
       forall i x, (3 <= i)%nat -> settings_list !! i = Some x ->
         exists y, scaled_setting x volt_adjust = Ok y /\
                   new_settings !! i = Some y /\
                   x * battery_voltage - 12 <= 12 * y
                     <= x * battery_voltage))
    as (new_settings & Hadj & Hlen' & Hlow & Hle & Hgt).
  { unfold adjusted_settings. rewrite Hl1. cbn [bind].
    destruct (Z.ltb_spec 12 battery_voltage) as [Hv12|Hv12].
    - assert (12 < battery_voltage < 65536) as Hv' by (unfold word in Hv; lia).
      destruct (scaled_setting_bound 0 battery_voltage)
        as (volt_adjust & _ & Hadj & _); [unfold word; lia|done|].
      rewrite Hadj. cbn [bind]. unfold scale_loop.
      set (f := fun x => match scaled_setting x volt_adjust with
                         | Ok y => y
                         | Raise _ => 0
                         end).
      assert (forall x, word x ->
                scaled_setting x volt_adjust = Ok (f x) /\
                x * battery_voltage - 12 <= 12 * f x <= x * battery_voltage)
        as Hf.
      { intros x Hwx.
        destruct (scaled_setting_bound x battery_voltage Hwx Hv')
          as (adj & y & Hadj' & Hy & Hb).
        rewrite Hadj in Hadj'. injection Hadj' as <-.
        unfold f. by rewrite Hy. }
      destruct (scale_fold volt_adjust f (length l1 - 3) 3 l1)
        as (l' & Hl' & Hlen' & Hlk); [lia| |].
      { intros i x Hi Hx. rewrite Hother in Hx by lia.
        by apply Hf, (Forall_lookup_1 _ _ _ _ Hw Hx). }
      exists l'. split; [exact Hl'|]. split; [lia|].
      split; [|split; [lia|]].
      + intros i Hi. rewrite Hlk. case_decide; [lia|done].
      + intros _. exists volt_adjust. split; [done|]. intros i x Hi Hx.
        destruct (Hf x (Forall_lookup_1 _ _ _ _ Hw Hx)) as [Hfx Hbx].
        exists (f x). split; [exact Hfx|]. split; [|exact Hbx].
        rewrite Hlk, Hother, Hx by lia.
        apply lookup_lt_Some in Hx. case_decide; [done|lia].
    - exists l1. split; [done|]. split; [lia|]. split; [done|].
      split; [|lia]. intros _ i Hi. apply Hother. lia. }
  (* the settings from index 3 on are never negative *)
  assert (forall i y, (3 <= i)%nat -> new_settings !! i = Some y -> 0 <= y)
    as Hnonneg.
  { intros i y Hi Hy.
    destruct (Z_le_gt_dec battery_voltage 12) as [Hv12|Hv12].
    - rewrite Hle in Hy by done.
      pose proof (Forall_lookup_1 _ _ _ _ Hw Hy) as Hwy.
      unfold word in Hwy. lia.
    - destruct Hgt as (volt_adjust & Hq & Hscaled); [lia|].
      destruct (lookup_lt_is_Some_2 settings_list i) as [x Hx];
        [apply lookup_lt_Some in Hy; lia|].
      destruct (Hscaled i x Hi Hx) as (y' & Hy' & Hlk & _).
      rewrite Hy in Hlk. injection Hlk as <-.
      apply (scaled_setting_nonneg x battery_voltage volt_adjust);
        [by apply (Forall_lookup_1 _ _ _ _ Hw Hx)|
         unfold word in Hv; lia|done|done]. }
  exists new_settings. split; [exact Hadj|].
  split.
  { intros Hfit.
    cbv [setBatterySettings bindM lift try_except write_registers]. rewrite Hadj.
    rewrite accepts_write_settings by done.
    rewrite (proj2 (forallb_valid_word new_settings) Hfit).
    cbv [bindM transact ret raise]. by destruct ok. }
  split.
  { intros Hfit b.
    cbv [setBatterySettings bindM lift try_except write_registers]. rewrite Hadj.
    rewrite accepts_write_settings by done.
    destruct (forallb valid_word new_settings) eqn:E; [|done].
    by apply forallb_valid_word in E. }
  split.
  { split.
    - intros Hfit. split.
      + destruct (Z.eq_dec battery_capacity 100) as [?|Hc]; [by left|right].
        apply (Forall_lookup_1 _ _ 1%nat _ Hfit).
        rewrite Hlow by lia. by apply Hcap.
      + intros i y _ Hy.
        pose proof (Forall_lookup_1 _ _ _ _ Hfit Hy) as Hwy.
        unfold word in Hwy. lia.
    - intros [Hc Hup]. apply Forall_lookup_2. intros i y Hy.
      destruct (le_lt_dec 3 i) as [Hi|Hi].
      { unfold word. split; [by apply (Hnonneg i)|by apply (Hup i)]. }
      rewrite Hlow in Hy by done.
      destruct (decide (i = 1%nat)) as [->|Hi1].
      + destruct (Z.eq_dec battery_capacity 100) as [E|E].
        * rewrite (Hsame E) in Hy. by apply (Forall_lookup_1 _ _ _ _ Hw Hy).
        * rewrite (Hcap E) in Hy. injection Hy as <-.
          by destruct Hc.
      + rewrite Hother in Hy by done.
        by apply (Forall_lookup_1 _ _ _ _ Hw Hy). }
  split.
  { intros Hsmall i y Hi Hy.
    destruct (Z_le_gt_dec battery_voltage 12) as [Hv12|Hv12].
    - rewrite Hle in Hy by done.
      pose proof (Forall_lookup_1 _ _ _ _ Hw Hy) as Hwy.
      unfold word in Hwy. lia.
    - destruct Hsmall as [?|Hsmall]; [lia|].
      destruct Hgt as (volt_adjust & Hq & Hscaled); [lia|].
      destruct (lookup_lt_is_Some_2 settings_list i) as [x Hx];
        [apply lookup_lt_Some in Hy; lia|].
      destruct (Hscaled i x Hi Hx) as (y' & _ & Hlk & Hb).
      rewrite Hy in Hlk. injection Hlk as <-.
      pose proof (Hsmall i x Hi Hx). lia. }
  split; [exact Hlen'|].
  split; [rewrite Hlow by lia; apply Hother; lia|].
  split; [rewrite Hlow by lia; apply Hother; lia|].
  split; [intros Hc; rewrite Hlow by lia; by apply Hcap|].
  split; [intros Hc; rewrite Hlow by lia; by rewrite Hsame|].
  split; [exact Hle|]. split; [exact Hgt|].
  split; [|split; by vm_compute].
  intros k Hk Hvk i x Hi Hx.
  destruct Hgt as (volt_adjust & Hadj' & Hscaled); [lia|].
  destruct (Hscaled i x Hi Hx) as (y & Hy & -> & _). f_equal.
  pose proof (Forall_lookup_1 _ _ _ _ Hw Hx) as Hwx.
  unfold word in Hwx, Hv. rewrite Hvk in Hadj'.
  rewrite int_truediv_exact in Hadj'
    by (change (2 ^ 53) with 9007199254740992; lia).
  injection Hadj' as <-.
  rewrite scaled_setting_exact in Hy
    by (change (2 ^ 53) with 9007199254740992; nia).
  by injection Hy.
Qed.

Lemma setBatterySettings_sequence_witness :
  length BATTERY_LEAD_ACID = 15%nat /\ Forall word BATTERY_LEAD_ACID /\
  word 24 /\
  exists new_settings,
    adjusted_settings BATTERY_LEAD_ACID 150 24 = Ok new_settings /\
    new_settings !! 1%nat = Some 150.
Proof.
  assert (Forall word BATTERY_LEAD_ACID) as Hw
    by (repeat (apply Forall_cons_2; [unfold word; lia|]); apply Forall_nil_2).
  assert (word 24) as Hv by (unfold word; lia).
  split; [reflexivity|]. split; [exact Hw|]. split; [exact Hv|].
  destruct (setBatterySettings_sequence BATTERY_LEAD_ACID 150 24 true [] []
              eq_refl Hw Hv)
    as (new_settings & Hadj & _ & _ & _ & _ & _ & _ & _ & Hcap & _).
  exists new_settings. split; [exact Hadj|]. apply Hcap. lia.
Defined.

(** * Further properties of the client *)

(** ** Exceptions that are not I/O errors *)

(** X1. [writeCoil] catches I/O errors only. When the instrument raises
    anything else on one of the coil writes, [setLoadControl] does not
    return: the exception leaves it, and the coils after the failing one are
    never written. *)
Theorem setLoadControl_lets_other_exceptions_out (e : exn) (ok1 ok2 : bool)
  (manual_on test_mode force_on : bool)
  (rest : list reply) (log : list request) :
  e <> IOError ->
  setLoadControl manual_on test_mode force_on
    {| replies := Fault e :: rest; sent := log |}
  = (Raise e,
     {| replies := rest; sent := log ++ [WriteBit 0x0002 manual_on] |}) /\
  setLoadControl manual_on test_mode force_on
    {| replies := write_outcome ok1 :: Fault e :: rest; sent := log |}
  = (Raise e,
     {| replies := rest;
        sent := log ++ [WriteBit 0x0002 manual_on;
                        WriteBit 0x0005 test_mode] |}) /\
  setLoadControl manual_on test_mode force_on
    {| replies := write_outcome ok1 :: write_outcome ok2 :: Fault e :: rest;
       sent := log |}
  = (Raise e,
     {| replies := rest;
        sent := log ++ [WriteBit 0x0002 manual_on; WriteBit 0x0005 test_mode;
                        WriteBit 0x0006 force_on] |}).
Proof.
  intros He.
  destruct e; try done; destruct ok1, ok2; cbn; by rewrite <- ?app_assoc.
Qed.

Lemma setLoadControl_lets_other_exceptions_out_witness :
  ValueError <> IOError /\
  setLoadControl true false true
    {| replies := [Ack; Fault ValueError; Ack]; sent := [] |}
  = (Raise ValueError,
     {| replies := [Ack];
        sent := [] ++ [WriteBit 0x0002 true; WriteBit 0x0005 false] |}).
Proof.
  assert (ValueError <> IOError) as He by discriminate.
  split; [exact He|].
  exact (proj1 (proj2 (setLoadControl_lets_other_exceptions_out
                         ValueError true true true false true [Ack] [] He))).
Defined.

(** ** One transaction per snapshot *)

(** X2. Whatever the device does, a snapshot read costs exactly one
    transaction: one block-read request goes out (5 words at 0x3000, 20 at
    0x3100, 20 at 0x3300, all with function code 4), at most one reply is
    taken, and nothing is retried. *)
Theorem snapshot_is_one_transaction (b : bus) :
  (readRatedData b).2
  = {| replies := tail (replies b);
       sent := sent b ++ [ReadRegisters 0x3000 5 4] |} /\
  (readCurrent b).2
  = {| replies := tail (replies b);
       sent := sent b ++ [ReadRegisters 0x3100 20 4] |} /\
  (readStats b).2
  = {| replies := tail (replies b);
       sent := sent b ++ [ReadRegisters 0x3300 20 4] |}.
Proof.
  assert (forall address count decode,
            (snapshot address count decode b).2
            = {| replies := tail (replies b);
                 sent := sent b ++ [ReadRegisters address count 4] |}) as H.
  { intros address count decode.
    cbv [snapshot try_except bindM read_registers transact lift ret raise].
    destruct (replies b) as [|[ws| |e] rs]; cbn [snd tail]; try done.
    - destruct (decide (length ws = count)); [|done].
      destruct (decode ws) as [d|e']; [done|by destruct e'].
    - by destruct e. }
  rewrite readRatedData_snapshot, readCurrent_snapshot, readStats_snapshot.
  by rewrite !H.
Qed.

(** ** What the decoders look at *)

Section DecoderBits.

Lemma land_mask (w mask c : Z) :
  Z.land mask c = c -> Z.land (Z.land w mask) c = Z.land w c.
Proof. intros H. by rewrite <- Z.land_assoc, H. Qed.

Lemma shiftr_land_mask (w mask k c : Z) :
  Z.land (Z.shiftr mask k) c = c ->
  Z.land (Z.shiftr (Z.land w mask) k) c = Z.land (Z.shiftr w k) c.
Proof. intros H. by rewrite Z.shiftr_land, <- Z.land_assoc, H. Qed.

(** The low 16 bits do not see a multiple of 65536. *)
Lemma low16_add (w k : Z) :
  Z.land (w + 65536 * k) 0xFFFF = Z.land w 0xFFFF.
Proof.
  change 0xFFFF with (Z.ones 16). rewrite !Z.land_ones by lia.
  change (2 ^ 16) with 65536. rewrite Z.mul_comm. apply Z.mod_add. lia.
Qed.

Lemma decodeChargingStatus_land (w mask : Z) :
  mask = 0xFF9F \/ mask = 0xFFFF ->
  decodeChargingStatus (Z.land w mask) = decodeChargingStatus w.
Proof.
  intros [-> | ->]; unfold decodeChargingStatus;
    by rewrite !shiftr_land_mask, !land_mask by done.
Qed.

Lemma decodeBatteryStatus_land (w mask : Z) :
  mask = 0x81FF \/ mask = 0xFFFF ->
  decodeBatteryStatus (Z.land w mask) = decodeBatteryStatus w.
Proof.
  intros [-> | ->]; unfold decodeBatteryStatus;
    by rewrite !shiftr_land_mask, !land_mask by done.
Qed.

End DecoderBits.

(** X3. The charging-status decoder looks at bits 0-4 and 7-15 only: bits 5
    and 6 and everything above bit 15 never change its result. The
    battery-status decoder looks at bits 0-8 and 15 only. In particular a
    register read as a signed number (65536 less) decodes like the unsigned
    one. *)
Theorem decoders_ignore_other_bits (w k : Z) :
  decodeChargingStatus (Z.land w 0xFF9F) = decodeChargingStatus w /\
  decodeBatteryStatus (Z.land w 0x81FF) = decodeBatteryStatus w /\
  decodeChargingStatus (w + 65536 * k) = decodeChargingStatus w /\
  decodeBatteryStatus (w + 65536 * k) = decodeBatteryStatus w.
Proof.
  split; [apply decodeChargingStatus_land; by left|].
  split; [apply decodeBatteryStatus_land; by left|].
  split.
  - rewrite <- (decodeChargingStatus_land (w + 65536 * k) 0xFFFF) by (by right).
    rewrite low16_add. apply decodeChargingStatus_land. by right.
  - rewrite <- (decodeBatteryStatus_land (w + 65536 * k) 0xFFFF) by (by right).
    rewrite low16_add. apply decodeBatteryStatus_land. by right.
Qed.

(** X4. The temperature field of the battery status is taken modulo 3, so
    it never raises, but codes three apart cannot be told apart: adding 3
    to a temperature code of at most 12 (0x30 on the word) leaves the whole
    result as it was. Code 3 reads [Normal], code 4 [Over Temp], and so
    on. *)
Theorem decodeBatteryStatus_temperature_wraps (w : Z) :
  Z.land (Z.shiftr w 4) 0x0F <= 12 ->
  decodeBatteryStatus (w + 0x30) = decodeBatteryStatus w.
Proof.
  intros Ht. destruct (nibble (Z.shiftr w 4)) as [Hn _]. rewrite Hn in Ht.
  rewrite Z.shiftr_div_pow2 in Ht by lia. change (2 ^ 4) with 16 in Ht.
  rewrite !decodeBatteryStatus_cases. change (2 ^ 4) with 16.
  replace ((w + 0x30) mod 16) with (w mod 16)
    by (Z.div_mod_to_equations; lia).
  replace ((w + 0x30) / 16 mod 16 mod 3) with (w / 16 mod 16 mod 3)
    by (Z.div_mod_to_equations; lia).
  rewrite !Z.testbit_odd, !Z.shiftr_div_pow2 by lia.
  replace ((w + 0x30) / 2 ^ 8) with (w / 2 ^ 8)
    by (change (2 ^ 8) with 256; Z.div_mod_to_equations; lia).
  replace ((w + 0x30) / 2 ^ 15) with (w / 2 ^ 15)
    by (change (2 ^ 15) with 32768; Z.div_mod_to_equations; lia).
  done.
Qed.

Lemma decodeBatteryStatus_temperature_wraps_witness :
  Z.land (Z.shiftr 0x0001 4) 0x0F <= 12 /\
  decodeBatteryStatus (0x0001 + 0x30) = decodeBatteryStatus 0x0001.
Proof.
  assert (Z.land (Z.shiftr 0x0001 4) 0x0F <= 12) as Ht
    by (change (Z.land (Z.shiftr 0x0001 4) 0x0F) with 0; lia).
  split; [exact Ht|].
  exact (decodeBatteryStatus_temperature_wraps 0x0001 Ht).
Defined.

(** ** Accuracy and order of the decoded values *)

Section Canonical.

(** A rounded result carries a full 53-digit mantissa. *)
Lemma binary_round_aux_canonical (sx : bool) (mx ex : Z) (lx : location) :
  0 < mx -> 53 <= Zdigits2 mx -> -1074 <= ex ->
  ex + (Zdigits2 mx - 53) < 971 ->
  exists (m : positive) (e : Z),
    binary_round_aux prec emax sx mx ex lx = S754_finite sx m e /\
    2 ^ 52 <= Z.pos m < 2 ^ 53.
Proof.
  intros Hmx Hd53 Hex Hk. set (k := Zdigits2 mx - 53) in *.
  destruct (Zdigits2_bounds mx Hmx) as (Hd & Hlo & Hhi).
  assert (0 < 2 ^ k) as Hpk by (apply pow2_gt0; lia).
  assert (2 ^ 52 <= mx / 2 ^ k < 2 ^ 53) as [Hm1 Hm2].
  { replace (Zdigits2 mx) with (53 + k) in Hhi by lia.
    replace (Zdigits2 mx - 1) with (52 + k) in Hlo by lia.
    rewrite pow2_split in Hhi, Hlo by lia. split.
    - apply Z.div_le_lower_bound; [done|]. lia.
    - apply Z.div_lt_upper_bound; [done|]. lia. }
  unfold binary_round_aux.
  destruct (shr_fexp prec emax mx ex lx) as [mrs1 e1] eqn:E1.
  assert (shr_m mrs1 = mx / 2 ^ k /\ e1 = ex + k) as [Hs1 He1].
  { unfold shr_fexp in E1.
    pose proof (shr_spec (shr_record_of_loc mx lx) ex
                  (fexp prec emax (Zdigits2 mx + ex) - ex)) as Hs.
    rewrite E1, shr_m_of_loc in Hs. cbn [fst snd] in Hs.
    replace (Z.max 0 (fexp prec emax (Zdigits2 mx + ex) - ex)) with k in Hs
      by (unfold fexp, emin, prec, emax; lia).
    apply Hs. lia. }
  pose proof (round_nearest_even_bounds (shr_m mrs1)
                (loc_of_shr_record mrs1)) as Hr.
  set (m1 := round_nearest_even (shr_m mrs1) (loc_of_shr_record mrs1)) in *.
  rewrite Hs1 in Hr.
  destruct (shr_fexp prec emax m1 e1 loc_Exact) as [mrs2 e2] eqn:E2.
  pose proof (shr_spec (shr_record_of_loc m1 loc_Exact) e1
                (fexp prec emax (Zdigits2 m1 + e1) - e1)) as Hs.
  unfold shr_fexp in E2. rewrite E2, shr_m_of_loc in Hs. cbn [fst snd] in Hs.
  change (2 ^ 52) with 4503599627370496 in *.
  destruct Hs as [Hs2 He2]; [lia|].
  destruct (Z_lt_le_dec m1 (2 ^ 53)) as [Hlt|Hge].
  - assert (Zdigits2 m1 <= 53) as Hd1 by (apply Zdigits2_le; lia).
    replace (Z.max 0 (fexp prec emax (Zdigits2 m1 + e1) - e1)) with 0
      in Hs2, He2 by (unfold fexp, emin, prec, emax; lia).
    rewrite Z.div_1_r in Hs2. rewrite Hs2.
    destruct m1 as [|p|p] eqn:Em1; [lia| |lia].
    replace (e2 <=? emax - prec) with true
      by (symmetry; apply Z.leb_le; unfold emax, prec; lia).
    exists p, e2. split; [done|lia].
  - assert (m1 = 2 ^ 53) as Em1 by lia.
    assert (Zdigits2 m1 = 54) as Hd1 by (by rewrite Em1).
    replace (Z.max 0 (fexp prec emax (Zdigits2 m1 + e1) - e1)) with 1
      in Hs2, He2 by (unfold fexp, emin, prec, emax; lia).
    rewrite Em1 in Hs2. change (2 ^ 53 / 2 ^ 1) with (Z.pos (2 ^ 52)) in Hs2.
    rewrite Hs2.
    replace (e2 <=? emax - prec) with true
      by (symmetry; apply Z.leb_le; unfold emax, prec; lia).
    exists (2 ^ 52)%positive, e2. split; [done|]. by split.
Qed.

Lemma div_round_canonical (s : bool) (m1 e1 m2 e2 : Z) :
  0 < m1 -> 0 < m2 ->
  Zdigits2 m1 <= Zdigits2 m2 + 53 ->
  -1074 <= Zdigits2 m1 + e1 - (Zdigits2 m2 + e2) - 53 < 969 ->
  exists (m : positive) (e : Z),
    (let '(q, ez, l) := SFdiv_core_binary prec emax m1 e1 m2 e2 in
     binary_round_aux prec emax s q ez l) = S754_finite s m e /\
    2 ^ 52 <= Z.pos m < 2 ^ 53.
Proof.
  intros Hm1 Hm2 Hdd He.
  destruct (Zdigits2_bounds m1 Hm1) as (Hd1 & Hlo1 & Hhi1).
  destruct (Zdigits2_bounds m2 Hm2) as (Hd2 & Hlo2 & Hhi2).
  set (d1 := Zdigits2 m1) in *. set (d2 := Zdigits2 m2) in *.
  set (e' := d1 + e1 - (d2 + e2) - 53) in *.
  unfold SFdiv_core_binary. fold d1 d2.
  replace (Z.min (fexp prec emax (d1 + e1 - (d2 + e2))) (e1 - e2)) with e'
    by (unfold fexp, emin, prec, emax; lia).
  replace (e1 - e2 - e') with (53 + d2 - d1) by lia.
  rewrite shl_cases by lia.
  set (sh := 53 + d2 - d1). set (m' := m1 * 2 ^ sh).
  pose proof (Z_div_mod m' m2 ltac:(lia)) as Hdm.
  destruct (Z.div_eucl m' m2) as [q r]. destruct Hdm as [Hq Hr].
  assert (2 ^ (52 + d2) <= m' < 2 ^ (53 + d2)) as [Hlo' Hhi'].
  { unfold m'. replace (52 + d2) with (d1 - 1 + sh) by (unfold sh; lia).
    replace (53 + d2) with (d1 + sh) by (unfold sh; lia).
    rewrite !pow2_split by (unfold sh; lia).
    pose proof (pow2_gt0 sh ltac:(unfold sh; lia)). nia. }
  assert (2 ^ 52 <= q < 2 ^ 54) as [Hq1 Hq2].
  { replace (52 + d2) with (52 + 1 + (d2 - 1)) in Hlo' by lia.
    replace (53 + d2) with (54 + (d2 - 1)) in Hhi' by lia.
    replace (2 ^ d2) with (2 ^ (1 + (d2 - 1))) in Hhi2 by (f_equal; lia).
    rewrite !pow2_split in * by lia.
    pose proof (pow2_gt0 (d2 - 1) ltac:(lia)).
    change (2 ^ 1) with 2 in *. change (2 ^ 52) with 4503599627370496 in *.
    change (2 ^ 54) with 18014398509481984 in *. nia. }
  assert (53 <= Zdigits2 q <= 54) as Hdq.
  { split.
    - destruct (Zdigits2_bounds q ltac:(lia)) as (_ & _ & Hh).
      destruct (Z_lt_le_dec (Zdigits2 q) 53) as [Hlt|]; [|done].
      assert (2 ^ Zdigits2 q <= 2 ^ 52) by (apply Z.pow_le_mono_r; lia).
      lia.
    - apply Zdigits2_le; lia. }
  apply binary_round_aux_canonical; lia.
Qed.

(** The hundredth of a positive 32-bit integer is a normal double. *)
Lemma hundredth_canonical (n : Z) :
  0 < n < 2 ^ 32 ->
  exists (m : positive) (e : Z),
    int_truediv_float n f100 = Ok (S754_finite false m e) /\
    2 ^ 52 <= Z.pos m < 2 ^ 53.
Proof.
  intros [Hn0 Hn].
  assert (n < 2 ^ 53) as Hn53 by (change (2 ^ 32) with 4294967296 in Hn;
    change (2 ^ 53) with 9007199254740992; lia).
  unfold int_truediv_float. rewrite float_of_int_small by lia.
  destruct (Z2SF_pos n) as (m1 & -> & Hm1); [lia|].
  cbn [bind]. unfold float_truediv, f100. cbn [is_zero].
  unfold SFdiv. cbn [xorb].
  destruct (Zdigits2_bounds n Hn0) as (Hd & Hlo & Hhi).
  assert (Zdigits2 n <= 32) as Hd32 by (by apply Zdigits2_le).
  set (d := Zdigits2 n) in *.
  assert (2 ^ d * 2 ^ (53 - d) = 2 ^ 53) as Hpd
    by (rewrite <- pow2_split by lia; f_equal; lia).
  assert (2 ^ (d - 1) * 2 = 2 ^ d) as Hpd'
    by (replace d with (d - 1 + 1) at 2 by lia; by rewrite pow2_split by lia).
  pose proof (pow2_gt0 (53 - d) ltac:(lia)) as Hp.
  assert (Zdigits2 (Z.pos m1) = 53) as Hdm1.
  { apply Zdigits2_unique; [|lia]. rewrite Hm1.
    change (2 ^ (53 - 1)) with (2 ^ 52). change (2 ^ 53) with (2 ^ 52 * 2) in *.
    nia. }
  destruct (div_round_canonical false (Z.pos m1) (d - 53)
              (Z.pos 7036874417766400) (-46))
    as (m & e & -> & Hcan); [lia|lia|rewrite Hdm1; done| |].
  { rewrite Hdm1. change (Zdigits2 (Z.pos 7036874417766400)) with 53. lia. }
  by exists m, e.
Qed.

(** Two normal doubles compare as their values do. *)
Lemma SFltb_canonical (m m' : positive) (e e' : Z) :
  2 ^ 52 <= Z.pos m < 2 ^ 53 -> 2 ^ 52 <= Z.pos m' < 2 ^ 53 ->
  -60 <= e -> -60 <= e' ->
  Z.pos m * 2 ^ (e + 60) < Z.pos m' * 2 ^ (e' + 60) ->
  SFltb (S754_finite false m e) (S754_finite false m' e') = true.
Proof.
  intros Hm Hm' He He' Hlt. unfold SFltb, SFcompare.
  change (2 ^ 52) with 4503599627370496 in *.
  change (2 ^ 53) with 9007199254740992 in *.
  destruct (Z.compare_spec e e') as [->|Hee|Hee]; [|done|exfalso].
  - pose proof (pow2_gt0 (e' + 60) ltac:(lia)) as Hp.
    assert (Z.pos m < Z.pos m') as Hmm by nia.
    rewrite Pos.compare_cont_spec.
    by apply Pos.compare_lt_iff in Hmm as ->.
  - replace (e + 60) with (e - e' + (e' + 60)) in Hlt by lia.
    rewrite pow2_split in Hlt by lia.
    pose proof (pow2_gt0 (e' + 60) ltac:(lia)) as Hp.
    assert (2 ^ 1 <= 2 ^ (e - e')) as Hp1 by (apply Z.pow_le_mono_r; lia).
    change (2 ^ 1) with 2 in Hp1.
    set (A := 2 ^ (e - e')) in *. set (P := 2 ^ (e' + 60)) in *.
    assert (9007199254740992 <= Z.pos m * A) as HmA by nia.
    assert (9007199254740992 * P <= Z.pos m * A * P) as H1
      by (apply Z.mul_le_mono_nonneg_r; lia).
    assert (Z.pos m' * P < 9007199254740992 * P) as H2
      by (apply Z.mul_lt_mono_pos_r; lia).
    lia.
Qed.

End Canonical.

(** X5. The value decoded from a register pair is accurate: for 16-bit
    words it is a finite double that differs from the exact
    [(high * 65536 + low) / 100] by less than 10^-8. It is the zero float
    exactly when both words are zero: the pair (0, 0) decodes to 0.0 and
    no other pair does. *)
Theorem combine32BitValue_accuracy (low high : Z) :
  word low -> word high ->
  exists f, combine32BitValue low high = Ok f /\
            hundredths_within f (high * 65536 + low) /\
            (f = S754_zero false <-> low = 0 /\ high = 0) /\
            combine32BitValue 0 0 = Ok (S754_zero false).
Proof.
  intros Hl Hh. pose proof (pair_range low high Hl Hh) as Hn.
  unfold word in Hl, Hh. unfold combine32BitValue at 1.
  destruct (Z.eq_dec (high * 65536 + low) 0) as [E|Hne].
  - rewrite E. exists (S754_zero false).
    split; [done|]. split; [done|]. split; [|done].
    split; [intros _; lia|done].
  - destruct (hundredth_bound (high * 65536 + low)) as (m & e & -> & He & Hb);
      [lia|].
    exists (S754_finite false m e). split; [done|].
    split; [cbn [hundredths_within]; split; [lia|split; [done|lia]]|].
    split; [|done]. split; [done|lia].
Qed.

Lemma combine32BitValue_accuracy_witness :
  word 0x3039 /\ word 0x0002 /\
  exists f, combine32BitValue 0x3039 0x0002 = Ok f /\
            hundredths_within f (0x0002 * 65536 + 0x3039).
Proof.
  assert (word 0x3039) as Hl by (unfold word; lia).
  assert (word 0x0002) as Hh by (unfold word; lia).
  split; [exact Hl|]. split; [exact Hh|].
  destruct (combine32BitValue_accuracy 0x3039 0x0002 Hl Hh)
    as (f & Hf & Hacc & _).
  exists f. split; [exact Hf|exact Hacc].
Defined.

(** X6. Decoding a register pair keeps the order of the raw counters: of
    two pairs of 16-bit words, the one with the smaller 32-bit value
    decodes to the strictly smaller float, so an energy total that grows
    on the device grows in the readings. *)
Theorem combine32BitValue_order (low high low' high' : Z) :
  word low -> word high -> word low' -> word high' ->
  high * 65536 + low < high' * 65536 + low' ->
  exists f f',
    combine32BitValue low high = Ok f /\
    combine32BitValue low' high' = Ok f' /\
    SFltb f f' = true.
Proof.
  intros Hl Hh Hl' Hh' Hlt.
  pose proof (pair_range low high Hl Hh) as Hn.
  pose proof (pair_range low' high' Hl' Hh') as Hn'.
  unfold combine32BitValue.
  destruct (hundredth_bound (high' * 65536 + low'))
    as (m' & e' & Hr' & He' & Hb'); [lia|].
  destruct (hundredth_canonical (high' * 65536 + low'))
    as (m2 & e2 & Hr2 & Hc'); [lia|].
  rewrite Hr' in Hr2. injection Hr2 as <- <-. rewrite Hr'.
  destruct (Z.eq_dec (high * 65536 + low) 0) as [->|Hne].
  { by exists (S754_zero false), (S754_finite false m' e'). }
  destruct (hundredth_bound (high * 65536 + low))
    as (m & e & Hr & He & Hb); [lia|].
  destruct (hundredth_canonical (high * 65536 + low))
    as (m1 & e1 & Hr1 & Hc); [lia|].
  rewrite Hr in Hr1. injection Hr1 as <- <-. rewrite Hr.
  exists (S754_finite false m e), (S754_finite false m' e').
  split; [done|]. split; [done|].
  apply SFltb_canonical; try done.
  change (2 ^ 60) with 1152921504606846976 in Hb, Hb'.
  change (2 ^ 40) with 1099511627776 in Hb, Hb'. lia.
Qed.

Lemma combine32BitValue_order_witness :
  word 0xFFFF /\ word 0 /\ word 1 /\ 0 * 65536 + 0xFFFF < 1 * 65536 + 0 /\
  exists f f',
    combine32BitValue 0xFFFF 0 = Ok f /\
    combine32BitValue 0 1 = Ok f' /\
    SFltb f f' = true.
Proof.
  assert (word 0xFFFF) as H1 by (unfold word; lia).
  assert (word 0) as H2 by (unfold word; lia).
  assert (word 1) as H3 by (unfold word; lia).
  assert (0 * 65536 + 0xFFFF < 1 * 65536 + 0) as H4 by lia.
  split; [exact H1|]. split; [exact H2|]. split; [exact H3|].
  split; [exact H4|].
  exact (combine32BitValue_order 0xFFFF 0 0 1 H1 H2 H2 H3 H4).
Defined.

(** ** What the readings can hold *)

Section SnapshotValues.

Lemma getitem_nat {A} (l : list A) (i : nat) :
  getitem l (Z.of_nat i)
  = match l !! i with Some x => Ok x | None => Raise IndexError end.
Proof.
  unfold getitem.
  replace (Z.of_nat i <? 0) with false by (symmetry; apply Z.ltb_ge; lia).
  replace (Z.of_nat i <? 0) with false by (symmetry; apply Z.ltb_ge; lia).
  by rewrite Nat2Z.id.
Qed.

Lemma getitem_elem {A} (l : list A) (i : Z) (x : A) :
  getitem l i = Ok x -> x ∈ l.
Proof.
  unfold getitem. cbv zeta.
  destruct (_ <? 0); [done|].
  destruct (l !! _) as [y|] eqn:E; [|done].
  intros [= <-]. by apply list_elem_of_lookup_2 in E.
Qed.

Lemma hundredth_nonneg (n : Z) (f : spec_float) :
  0 <= n < 2 ^ 32 -> int_truediv_float n f100 = Ok f ->
  finite_nonneg f = true.
Proof.
  intros Hn. destruct (Z.eq_dec n 0) as [->|Hne].
  - by intros [= <-].
  - destruct (hundredth_bound n) as (m & e & -> & _); [lia|].
    by intros [= <-].
Qed.

Lemma centi_nonneg (regs : list Z) (i : Z) (f : spec_float) :
  Forall word regs -> centi regs i = Ok f -> finite_nonneg f = true.
Proof.
  intros Hw. unfold centi.
  destruct (getitem regs i) as [x|] eqn:E; [|done]. cbn [bind].
  apply getitem_elem in E.
  pose proof (proj1 (Forall_forall _ _) Hw x E) as Hx. unfold word in Hx.
  apply hundredth_nonneg. change (2 ^ 32) with 4294967296. lia.
Qed.

Lemma pair32_nonneg (regs : list Z) (i j : Z) (f : spec_float) :
  Forall word regs -> pair32 regs i j = Ok f -> finite_nonneg f = true.
Proof.
  intros Hw. unfold pair32.
  destruct (getitem regs i) as [lo|] eqn:El; [|done].
  destruct (getitem regs j) as [hi|] eqn:Eh; [|done]. cbn [bind].
  apply getitem_elem in El, Eh.
  pose proof (proj1 (Forall_forall _ _) Hw lo El) as Hlo.
  pose proof (proj1 (Forall_forall _ _) Hw hi Eh) as Hhi.
  unfold combine32BitValue. apply hundredth_nonneg.
  by apply pair_range.
Qed.

(** Every entry of a dict literal whose fields decode 16-bit words. *)
Ltac all_values Hw :=
  repeat match goal with
    | |- bind ?m _ = Ok _ -> _ =>
        let E := fresh "E" in
        destruct m eqn:E; cbn [bind]; [|discriminate]
    end;
  intros [= <-];
  repeat (apply map_Forall_insert_2;
          [by eauto using centi_nonneg, pair32_nonneg|]);
  apply map_Forall_empty.

Lemma rated_of_regs_values (regs : list Z) (d : reading) :
  Forall word regs -> rated_of_regs regs = Ok d ->
  map_Forall (fun _ f => finite_nonneg f = true) d.
Proof. intros Hw. unfold rated_of_regs. all_values Hw. Qed.

Lemma current_of_regs_values (regs : list Z) (d : reading) :
  Forall word regs -> current_of_regs regs = Ok d ->
  map_Forall (fun _ f => finite_nonneg f = true) d.
Proof. intros Hw. unfold current_of_regs. all_values Hw. Qed.

Lemma stats_of_regs_values (regs : list Z) (d : reading) :
  Forall word regs -> stats_of_regs regs = Ok d ->
  map_Forall (fun _ f => finite_nonneg f = true) d.
Proof. intros Hw. unfold stats_of_regs. all_values Hw. Qed.

(** A reading can only come out of the words that were delivered. *)
Lemma snapshot_some (address : Z) (count : nat)
  (decode : list Z -> result reading) (r : reply) (rest : list reply)
  (log : list request) (d : reading) :
  (snapshot address count decode {| replies := r :: rest; sent := log |}).1
  = Ok (Some d) ->
  exists ws, r = Words ws /\ length ws = count /\ decode ws = Ok d.
Proof.
  cbv [snapshot try_except bindM read_registers transact lift ret raise].
  cbn [replies sent].
  destruct r as [ws| |e]; cbn [fst]; [|done|by destruct e].
  destruct (decide (length ws = count)); [|done].
  destruct (decode ws) as [d'|e'] eqn:E; cbn [fst]; [|by destruct e'].
  intros [= <-]. by exists ws.
Qed.

End SnapshotValues.

(** X7. Whatever 16-bit words the device delivers, every value of a
    reading returned by [readRatedData], [readCurrent] or [readStats] is a
    finite double that is zero or positive: never a NaN, never an infinity
    and never a negative number. In particular the temperature fields are
    read as unsigned words, so a temperature below zero cannot be
    reported. *)
Theorem snapshot_values_finite_nonneg (ws : list Z) (rest : list reply)
  (log : list request) (d : reading) :
  Forall word ws ->
  (let b := {| replies := Words ws :: rest; sent := log |} in
   (readRatedData b).1 = Ok (Some d) \/
   (readCurrent b).1 = Ok (Some d) \/
   (readStats b).1 = Ok (Some d)) ->
  map_Forall (fun _ f => finite_nonneg f = true) d.
Proof.
  intros Hw. cbv zeta.
  rewrite readRatedData_snapshot, readCurrent_snapshot, readStats_snapshot.
  intros [H|[H|H]]; apply snapshot_some in H as (ws' & [= <-] & _ & Hd).
  - by apply (rated_of_regs_values ws).
  - by apply (current_of_regs_values ws).
  - by apply (stats_of_regs_values ws).
Qed.

Lemma snapshot_values_finite_nonneg_witness :
  Forall word [1850; 420; 7770; 0; 1320; 580; 7656; 0; 0; 0; 0; 0;
               1318; 150; 1977; 0; 65535; 2700; 2700; 8600] /\
  exists d,
    (readCurrent
       {| replies := [Words [1850; 420; 7770; 0; 1320; 580; 7656; 0; 0; 0;
                             0; 0; 1318; 150; 1977; 0; 65535; 2700; 2700;
                             8600]];
          sent := [] |}).1 = Ok (Some d) /\
    map_Forall (fun _ f => finite_nonneg f = true) d.
Proof.
  assert (Forall word [1850; 420; 7770; 0; 1320; 580; 7656; 0; 0; 0; 0; 0;
                       1318; 150; 1977; 0; 65535; 2700; 2700; 8600]) as Hw
    by (repeat (apply Forall_cons_2; [unfold word; lia|]); apply Forall_nil_2).
  split; [exact Hw|].
  destruct (current_of_regs_ok
              [1850; 420; 7770; 0; 1320; 580; 7656; 0; 0; 0; 0; 0;
               1318; 150; 1977; 0; 65535; 2700; 2700; 8600] eq_refl Hw)
    as [d Hd].
  assert ((readCurrent
             {| replies := [Words [1850; 420; 7770; 0; 1320; 580; 7656; 0; 0;
                                   0; 0; 0; 1318; 150; 1977; 0; 65535; 2700;
                                   2700; 8600]];
                sent := [] |}).1 = Ok (Some d)) as Hr
    by (rewrite readCurrent_snapshot; by erewrite snapshot_ok).
  exists d. split; [exact Hr|].
  exact (snapshot_values_finite_nonneg _ [] [] d Hw (or_intror (or_introl Hr))).
Defined.

(** X8. [readCurrent] asks for twenty words and uses sixteen of them: the
    words at offsets 8 to 11 of the block take no part in the reading. Two
    answers of the same length that differ only there give the same
    result. *)
Theorem readCurrent_ignores_words_8_to_11 (ws ws' : list Z)
  (rest : list reply) (log : list request) :
  length ws = length ws' ->
  (forall i, ~ (8 <= i < 12)%nat -> ws !! i = ws' !! i) ->
  readCurrent {| replies := Words ws :: rest; sent := log |}
  = readCurrent {| replies := Words ws' :: rest; sent := log |}.
Proof.
  intros Hlen Hsame.
  assert (current_of_regs ws = current_of_regs ws') as Hd.
  { unfold current_of_regs, centi, pair32.
    change 0 with (Z.of_nat 0). change 1 with (Z.of_nat 1).
    change 2 with (Z.of_nat 2). change 3 with (Z.of_nat 3).
    change 4 with (Z.of_nat 4). change 5 with (Z.of_nat 5).
    change 6 with (Z.of_nat 6). change 7 with (Z.of_nat 7).
    change 12 with (Z.of_nat 12). change 13 with (Z.of_nat 13).
    change 14 with (Z.of_nat 14). change 15 with (Z.of_nat 15).
    change 16 with (Z.of_nat 16). change 17 with (Z.of_nat 17).
    change 18 with (Z.of_nat 18). change 19 with (Z.of_nat 19).
    rewrite !getitem_nat. by rewrite !Hsame by lia. }
  cbv [readCurrent try_except bindM read_registers transact lift ret raise].
  cbn [replies sent]. rewrite Hlen.
  destruct (decide (length ws' = 20%nat)); [|done]. by rewrite Hd.
Qed.

Lemma readCurrent_ignores_words_8_to_11_witness :
  length [1850; 420; 7770; 0; 1320; 580; 7656; 0; 0; 0; 0; 0;
          1318; 150; 1977; 0; 2500; 2700; 2700; 8600]
  = length [1850; 420; 7770; 0; 1320; 580; 7656; 0; 11; 22; 33; 44;
            1318; 150; 1977; 0; 2500; 2700; 2700; 8600] /\
  (forall i, ~ (8 <= i < 12)%nat ->
     [1850; 420; 7770; 0; 1320; 580; 7656; 0; 0; 0; 0; 0;
      1318; 150; 1977; 0; 2500; 2700; 2700; 8600] !! i
     = [1850; 420; 7770; 0; 1320; 580; 7656; 0; 11; 22; 33; 44;
        1318; 150; 1977; 0; 2500; 2700; 2700; 8600] !! i) /\
  readCurrent
    {| replies := [Words [1850; 420; 7770; 0; 1320; 580; 7656; 0; 0; 0; 0; 0;
                          1318; 150; 1977; 0; 2500; 2700; 2700; 8600]];
       sent := [] |}
  = readCurrent
      {| replies := [Words [1850; 420; 7770; 0; 1320; 580; 7656; 0; 11; 22;
                            33; 44; 1318; 150; 1977; 0; 2500; 2700; 2700;
                            8600]];
         sent := [] |}.
Proof.
  assert (forall i, ~ (8 <= i < 12)%nat ->
     [1850; 420; 7770; 0; 1320; 580; 7656; 0; 0; 0; 0; 0;
      1318; 150; 1977; 0; 2500; 2700; 2700; 8600] !! i
     = [1850; 420; 7770; 0; 1320; 580; 7656; 0; 11; 22; 33; 44;
        1318; 150; 1977; 0; 2500; 2700; 2700; 8600] !! i) as Hsame.
  { intros i Hi.
    do 20 (destruct i as [|i]; [first [reflexivity | exfalso; lia]|]).
    reflexivity. }
  split; [reflexivity|]. split; [exact Hsame|].
  exact (readCurrent_ignores_words_8_to_11
           [1850; 420; 7770; 0; 1320; 580; 7656; 0; 0; 0; 0; 0;
            1318; 150; 1977; 0; 2500; 2700; 2700; 8600]
           [1850; 420; 7770; 0; 1320; 580; 7656; 0; 11; 22; 33; 44;
            1318; 150; 1977; 0; 2500; 2700; 2700; 8600]
           [] [] eq_refl Hsame).
Defined.

(** ** Battery settings of any length *)

Section SettingsOfAnyLength.

(** What [adjusted_settings] leaves at an index from 3 on, for a voltage
    above 12 and a list of any length. *)
Lemma adjusted_settings_lookup (settings_list : list Z)
  (battery_capacity battery_voltage : Z) (new_settings : list Z)
  (i : nat) (x : Z) :
  Forall word settings_list -> 12 < battery_voltage < 65536 ->
  adjusted_settings settings_list battery_capacity battery_voltage
  = Ok new_settings ->
  (3 <= i)%nat -> settings_list !! i = Some x ->
  exists y, new_settings !! i = Some y /\
            x * battery_voltage - 12 <= 12 * y <= x * battery_voltage.
Proof.
  intros Hw Hv Hadj Hi Hx.
  pose proof (lookup_lt_Some _ _ _ Hx) as Hlen.
  destruct (capacity_step settings_list battery_capacity)
    as (l1 & Hl1 & Hlen1 & _ & _ & Hother); [lia|].
  unfold adjusted_settings in Hadj. rewrite Hl1 in Hadj. cbn [bind] in Hadj.
  replace (12 <? battery_voltage) with true in Hadj
    by (symmetry; apply Z.ltb_lt; lia).
  destruct (scaled_setting_bound 0 battery_voltage)
    as (volt_adjust & _ & Hq & _); [unfold word; lia|done|].
  rewrite Hq in Hadj. cbn [bind] in Hadj. unfold scale_loop in Hadj.
  set (f := fun x => match scaled_setting x volt_adjust with
                     | Ok y => y
                     | Raise _ => 0
                     end).
  assert (forall x, word x ->
            scaled_setting x volt_adjust = Ok (f x) /\
            x * battery_voltage - 12 <= 12 * f x <= x * battery_voltage)
    as Hf.
  { intros x' Hwx.
    destruct (scaled_setting_bound x' battery_voltage Hwx Hv)
      as (adj & y & Hq' & Hy & Hb).
    rewrite Hq in Hq'. injection Hq' as <-.
    unfold f. by rewrite Hy. }
  destruct (scale_fold volt_adjust f (length l1 - 3) 3 l1)
    as (l' & Hl' & _ & Hlk); [lia| |].
  { intros j x' Hj Hx'. rewrite Hother in Hx' by lia.
    by apply Hf, (Forall_lookup_1 _ _ _ _ Hw Hx'). }
  rewrite Hl' in Hadj. injection Hadj as <-.
  exists (f x). split.
  - rewrite Hlk, Hother, Hx by lia. case_decide; [done|lia].
  - by apply Hf, (Forall_lookup_1 _ _ _ _ Hw Hx).
Qed.

End SettingsOfAnyLength.

(** X9. The capacity is written at index 1 without a look at the length of
    the list. With a capacity other than 100 and a list of fewer than two
    settings, [setBatterySettings] raises [IndexError] before anything is
    sent to the device; this error is not caught, so neither 0 nor -2 is
    returned. *)
Theorem setBatterySettings_short_list (settings_list : list Z)
  (battery_capacity battery_voltage : Z) (b : bus) :
  (length settings_list < 2)%nat -> battery_capacity <> 100 ->
  setBatterySettings settings_list battery_capacity battery_voltage b
  = (Raise IndexError, b).
Proof.
  intros Hlen Hcap.
  assert (adjusted_settings settings_list battery_capacity battery_voltage
          = Raise IndexError) as Hadj.
  { unfold adjusted_settings.
    replace (battery_capacity =? 100) with false
      by (symmetry; by apply Z.eqb_neq).
    unfold setitem. cbn [Z.ltb Z.compare Z.leb andb].
    replace (1 <? Z.of_nat (length settings_list)) with false
      by (symmetry; apply Z.ltb_ge; lia).
    done. }
  cbv [setBatterySettings bindM lift]. by rewrite Hadj.
Qed.

Lemma setBatterySettings_short_list_witness :
  (length [0] < 2)%nat /\ 150 <> 100 /\
  setBatterySettings [0] 150 24 {| replies := [Ack]; sent := [] |}
  = (Raise IndexError, {| replies := [Ack]; sent := [] |}).
Proof.
  assert (length [0] < 2)%nat as Hlen by (cbn; lia).
  assert (150 <> 100) as Hcap by lia.
  split; [exact Hlen|]. split; [exact Hcap|].
  exact (setBatterySettings_short_list [0] 150 24
           {| replies := [Ack]; sent := [] |} Hlen Hcap).
Defined.

(** X10. Scaling for a battery voltage above 12 keeps the thresholds in
    their order. For a list of 16-bit words of any length and a voltage
    that is itself a word, a setting at index 3 or later that was strictly
    below another one is strictly below it in the sequence that is
    written, although each value is cut to an integer and may be one less
    than the exact product. *)
Theorem setBatterySettings_keeps_order (settings_list : list Z)
  (battery_capacity battery_voltage : Z) (new_settings : list Z)
  (i j : nat) (x x' : Z) :
  Forall word settings_list -> 12 < battery_voltage < 65536 ->
  adjusted_settings settings_list battery_capacity battery_voltage
  = Ok new_settings ->
  (3 <= i)%nat -> (3 <= j)%nat ->
  settings_list !! i = Some x -> settings_list !! j = Some x' ->
  x < x' ->
  exists y y', new_settings !! i = Some y /\ new_settings !! j = Some y' /\
               y < y'.
Proof.
  intros Hw Hv Hadj Hi Hj Hx Hx' Hlt.
  destruct (adjusted_settings_lookup _ _ _ _ i x Hw Hv Hadj Hi Hx)
    as (y & Hy & Hb).
  destruct (adjusted_settings_lookup _ _ _ _ j x' Hw Hv Hadj Hj Hx')
    as (y' & Hy' & Hb').
  exists y, y'. split; [done|]. split; [done|].
  assert (x * battery_voltage + battery_voltage <= x' * battery_voltage)
    by nia.
  lia.
Qed.

Lemma setBatterySettings_keeps_order_witness :
  Forall word BATTERY_LEAD_ACID /\ 12 < 13 < 65536 /\
  adjusted_settings BATTERY_LEAD_ACID 100 13
  = Ok [0; 300; 300; 1754; 1625; 1625; 1581; 1560; 1495; 1765; 1365; 1321;
        1300; 1202; 1148] /\
  (3 <= 13)%nat /\ (3 <= 14)%nat /\
  BATTERY_LEAD_ACID !! 14%nat = Some 1060 /\
  BATTERY_LEAD_ACID !! 13%nat = Some 1110 /\
  1060 < 1110 /\
  exists y y',
    [0; 300; 300; 1754; 1625; 1625; 1581; 1560; 1495; 1765; 1365; 1321;
     1300; 1202; 1148] !! 14%nat = Some y /\
    [0; 300; 300; 1754; 1625; 1625; 1581; 1560; 1495; 1765; 1365; 1321;
     1300; 1202; 1148] !! 13%nat = Some y' /\
    y < y'.
Proof.
  assert (Forall word BATTERY_LEAD_ACID) as Hw
    by (repeat (apply Forall_cons_2; [unfold word; lia|]); apply Forall_nil_2).
  assert (12 < 13 < 65536) as Hv by lia.
  assert (adjusted_settings BATTERY_LEAD_ACID 100 13
          = Ok [0; 300; 300; 1754; 1625; 1625; 1581; 1560; 1495; 1765; 1365;
                1321; 1300; 1202; 1148]) as Hadj by (vm_compute; reflexivity).
  assert (3 <= 13)%nat as Hi by lia.
  assert (3 <= 14)%nat as Hj by lia.
  assert (1060 < 1110) as Hlt by lia.
  split; [exact Hw|]. split; [exact Hv|]. split; [exact Hadj|].
  split; [exact Hi|]. split; [exact Hj|].
  split; [reflexivity|]. split; [reflexivity|]. split; [exact Hlt|].
  exact (setBatterySettings_keeps_order BATTERY_LEAD_ACID 100 13 _
           14%nat 13%nat 1060 1110 Hw Hv Hadj Hj Hi eq_refl eq_refl Hlt).
Defined.

(** * The logger *)

(** ** Flattening *)

Section Flattening.

Variable float_of_str : string -> option spec_float.

Lemma flatten_value_dict (data : list (string * pyval))
  (prefix separator : string) :
  flatten_value float_of_str (VDict data) prefix separator
  = flatten_items float_of_str prefix separator data ∅.
Proof. reflexivity. Qed.








(** A loop of insertions over items with distinct keys builds the map of
    the items, on top of what was there. *)
Lemma foldl_insert_lookup (l : list (string * pyval)) :
  NoDup l.*1 ->
  forall (acc : gmap string pyval) (k : string),
    foldl (fun a kv => <[kv.1 := kv.2]> a) acc l !! k
    = match (list_to_map l : gmap string pyval) !! k with
      | Some v => Some v
      | None => acc !! k
      end.
Proof.
  induction l as [|[k0 v0] r IH]; intros Hnd acc k; [done|].
  apply NoDup_cons in Hnd as [Hk0 Hnd].
  cbn [foldl fst snd list_to_map foldr]. rewrite IH by done.
  destruct (decide (k = k0)) as [->|Hne].
  - rewrite (not_elem_of_list_to_map_1 _ _ Hk0).
    by rewrite !lookup_insert_eq.
  - by rewrite !lookup_insert_ne.
Qed.

Lemma flatten_items_flat (separator : string) (l : list (string * pyval)) :
  Forall (fun kv => is_number kv.2 = true) l ->
  forall acc,
    flatten_items float_of_str "" separator l acc
    = foldl (fun a kv => <[kv.1 := kv.2]> a) acc l.
Proof.
  induction 1 as [|[k v] r Hv _ IH]; intros acc; [done|].
  cbn [flatten_items foldl]. rewrite IH.
  by destruct v.
Qed.

Lemma flatten_flat (separator : string) (data : list (string * pyval)) :
  NoDup data.*1 -> Forall (fun kv => is_number kv.2 = true) data ->
  flatten_nested_dict float_of_str data "" separator = list_to_map data.
Proof.
  intros Hnd Hnum. unfold flatten_nested_dict.
  rewrite flatten_value_dict, flatten_items_flat by done.
  apply map_eq. intros k. rewrite foldl_insert_lookup by done.
  by destruct (_ !! k).
Qed.

Lemma flatten_reading (separator : string) (d : reading) :
  flatten_nested_dict float_of_str (items_of_reading d) "" separator
  = fields_of_reading d.
Proof.
  unfold items_of_reading. rewrite flatten_flat.
  - apply list_to_map_to_list.
  - apply NoDup_fst_map_to_list.
  - apply Forall_forall. intros [k v] Hkv.
    apply elem_of_map_to_list in Hkv. unfold fields_of_reading in Hkv.
    rewrite lookup_fmap in Hkv.
    destruct (d !! k); simplify_eq/=. done.
Qed.

End Flattening.




(** X13. A flat dict of numbers goes through [flatten_nested_dict]
    unchanged: when the keys are distinct (as the keys of a dict are) and
    every value is a bool, an int or a float, the result with the default
    empty prefix is the mapping of the items themselves, whatever the
    separator. *)
Theorem flatten_nested_dict_flat
  (float_of_str : string -> option spec_float)
  (data : list (string * pyval)) (separator : string) :
  NoDup data.*1 -> Forall (fun kv => is_number kv.2 = true) data ->
  flatten_nested_dict float_of_str data "" separator = list_to_map data.
Proof. apply flatten_flat. Qed.

Lemma flatten_nested_dict_flat_witness :
  NoDup [("PVvolt", VFloat (S754_zero false)); ("count", VInt 3);
         ("on", VBool true)].*1 /\
  Forall (fun kv => is_number kv.2 = true)
         [("PVvolt", VFloat (S754_zero false)); ("count", VInt 3);
          ("on", VBool true)] /\
  flatten_nested_dict (fun _ => None)
    [("PVvolt", VFloat (S754_zero false)); ("count", VInt 3);
     ("on", VBool true)] "" "_"
  = list_to_map [("PVvolt", VFloat (S754_zero false)); ("count", VInt 3);
                 ("on", VBool true)].
Proof.
  assert (NoDup [("PVvolt", VFloat (S754_zero false)); ("count", VInt 3);
                 ("on", VBool true)].*1) as Hnd
    by (apply (bool_decide_unpack _); vm_compute; exact I).
  assert (Forall (fun kv => is_number kv.2 = true)
            [("PVvolt", VFloat (S754_zero false)); ("count", VInt 3);
             ("on", VBool true)]) as Hnum
    by (repeat (apply Forall_cons_2; [reflexivity|]); apply Forall_nil_2).
  split; [exact Hnd|]. split; [exact Hnum|].
  exact (flatten_nested_dict_flat (fun _ => None)
           [("PVvolt", VFloat (S754_zero false)); ("count", VInt 3);
            ("on", VBool true)] "_" Hnd Hnum).
Defined.

(** ** One logging call *)

Section LoggerSteps.

Lemma snapshot_bus (address : Z) (count : nat)
  (decode : list Z -> result reading) (b : bus) :
  exists x,
    snapshot address count decode b
    = (Ok x, {| replies := tail (replies b);
                sent := sent b ++ [ReadRegisters address count 4] |}).
Proof.
  cbv [snapshot try_except bindM read_registers transact lift ret raise].
  destruct (replies b) as [|[ws| |e] rs]; cbn [tail]; try (by eexists).
  - destruct (decide (length ws = count)); [|by eexists].
    destruct (decode ws) as [d|e']; [by eexists|]. destruct e'; by eexists.
  - destruct e; by eexists.
Qed.

(** The shape the loggers of a snapshot share: read, give up on nothing,
    build the point, write it; any exception makes the answer [False]. *)
Lemma log_snapshot_logged (read : M (option reading))
  (prepare : reading -> gmap string pyval) (rq : request)
  (measurement_name : string) (w : world) :
  (forall b, exists x,
     read b = (Ok x, {| replies := tail (replies b);
                        sent := sent b ++ [rq] |})) ->
  exists r w',
    try_exceptL
      (log! data := on_tracer read in
       match data with
       | None => retL false
       | Some data =>
           if bool_decide (data = ∅) then retL false
           else
             log! point := create_measurement_point measurement_name
                             (prepare data) None None in
             log! _u := write_points [point] in
             retL true
       end)%py
      (fun _ => retL false) w = (Ok r, w') /\
    logged rq measurement_name w r w'.
Proof.
  intros Hread. destruct w as [b [ans st] clk tk].
  destruct (Hread b) as [x Hx].
  cbv [try_exceptL bindL on_tracer]. cbn [tracer ifclient clock ticks].
  rewrite Hx.
  destruct x as [d|]; [destruct (bool_decide (d = ∅))|];
    try (eexists false, _; split; [reflexivity|];
         unfold logged; cbn; by repeat split; try left).
  cbv [create_measurement_point bindL getTimestamp retL write_points].
  cbn [tracer ifclient clock ticks answers stored].
  destruct ans as [|[|e] ans].
  - eexists false, _. split; [reflexivity|].
    unfold logged; cbn. by repeat split; try left.
  - eexists true, _. split; [reflexivity|].
    unfold logged; cbn. repeat split. right. split; [done|].
    by eexists.
  - eexists false, _. split; [reflexivity|].
    unfold logged; cbn. by repeat split; try left.
Qed.

Variable float_of_str : string -> option spec_float.
Variable hash : string -> Z.

Lemma log_realtime_data_logged (measurement_name : string) (w : world) :
  exists r w',
    log_realtime_data float_of_str measurement_name w = (Ok r, w') /\
    logged (ReadRegisters 0x3100 20 4) measurement_name w r w'.
Proof.
  apply (log_snapshot_logged readCurrent
           (fun d => flatten_nested_dict float_of_str
                       (items_of_reading d) "" "_")).
  intros b. rewrite readCurrent_snapshot. apply snapshot_bus.
Qed.

Lemma log_statistics_logged (measurement_name : string) (w : world) :
  exists r w',
    log_statistics measurement_name w = (Ok r, w') /\
    logged (ReadRegisters 0x3300 20 4) measurement_name w r w'.
Proof.
  apply (log_snapshot_logged readStats fields_of_reading).
  intros b. rewrite readStats_snapshot. apply snapshot_bus.
Qed.

Lemma log_rated_data_logged (measurement_name : string) (w : world) :
  exists r w',
    log_rated_data measurement_name w = (Ok r, w') /\
    logged (ReadRegisters 0x3000 5 4) measurement_name w r w'.
Proof.
  apply (log_snapshot_logged readRatedData fields_of_reading).
  intros b. rewrite readRatedData_snapshot. apply snapshot_bus.
Qed.

(** The banks the device does not serve are never logged. *)
Lemma log_settings_nothing (measurement_name : string) (w : world) :
  log_settings measurement_name w = (Ok false, w).
Proof. by destruct w. Qed.

Lemma log_system_status_nothing (measurement_name : string) (w : world) :
  log_system_status hash measurement_name w = (Ok false, w).
Proof. by destruct w. Qed.

End LoggerSteps.

Section LoggerCases.

Lemma snapshot_no_words (address : Z) (count : nat)
  (decode : list Z -> result reading) (b : bus) :
  (forall ws, head (replies b) <> Some (Words ws)) ->
  snapshot address count decode b
  = (Ok None, {| replies := tail (replies b);
                 sent := sent b ++ [ReadRegisters address count 4] |}).
Proof.
  intros Hno.
  cbv [snapshot try_except bindM read_registers transact lift ret raise].
  destruct (replies b) as [|[ws| |e] rs]; cbn [tail]; try done.
  - by destruct (Hno ws).
  - by destruct e.
Qed.

Lemma log_snapshot_no_reading (read : M (option reading))
  (prepare : reading -> gmap string pyval)
  (measurement_name : string) (w : world) (b' : bus) :
  read (tracer w) = (Ok None, b') ->
  exists w',
    try_exceptL
      (log! data := on_tracer read in
       match data with
       | None => retL false
       | Some data =>
           if bool_decide (data = ∅) then retL false
           else
             log! point := create_measurement_point measurement_name
                             (prepare data) None None in
             log! _u := write_points [point] in
             retL true
       end)%py
      (fun _ => retL false) w = (Ok false, w') /\
    ifclient w' = ifclient w /\ ticks w' = ticks w.
Proof.
  intros Hread. cbv [try_exceptL bindL on_tracer]. rewrite Hread.
  by eexists.
Qed.

(** What a list of batches looks like after one logging call. *)
Lemma logged_batches (rq : request) (name : string) (w : world) (r : bool)
  (w' : world) :
  logged rq name w r w' ->
  sent (tracer w') = sent (tracer w) ++ [rq] /\
  exists new, stored (ifclient w') = stored (ifclient w) ++ new /\
              ((r = false /\ new = []) \/
               (r = true /\ exists p, new = [[p]])).
Proof.
  intros (Hs & _ & _ & [[-> Hst]|[-> (p & Hst & _)]]); (split; [done|]).
  - exists []. rewrite app_nil_r. split; [done|by left].
  - exists [[p]]. split; [done|]. right. split; [done|by exists p].
Qed.

End LoggerCases.

(** X14. When the device delivers its twenty words and the database
    takes the write, [log_realtime_data] answers [True] after storing
    exactly one point: it has the name asked for, the time the clock gave
    and no tags, and its fields are the reading of [readCurrent] as it
    came, key for key, since flattening leaves a flat dict of floats
    alone. *)
Theorem log_realtime_data_stores_the_reading
  (float_of_str : string -> option spec_float) (measurement_name : string)
  (ws : list Z) (rest : list reply) (log : list request)
  (ans : list db_reply) (st : list (list point)) (clk : nat -> Z)
  (tk : nat) :
  length ws = 20%nat -> Forall word ws ->
  exists d,
    current_of_regs ws = Ok d /\ dom d = CURRENT_KEYS /\
    log_realtime_data float_of_str measurement_name
      {| tracer := {| replies := Words ws :: rest; sent := log |};
         ifclient := {| answers := Stored :: ans; stored := st |};
         clock := clk; ticks := tk |}
    = (Ok true,
       {| tracer := {| replies := rest;
                       sent := log ++ [ReadRegisters 0x3100 20 4] |};
          ifclient :=
            {| answers := ans;
               stored := st ++ [[ {| measurement := measurement_name;
                                     time := clk tk;
                                     fields := fields_of_reading d;
                                     tags := None |} ]] |};
          clock := clk; ticks := S tk |}).
Proof.
  intros Hlen Hw.
  destruct (current_of_regs_ok ws Hlen Hw) as [d Hd].
  pose proof (current_of_regs_dom ws d Hd) as Hdom.
  assert (d <> ∅) as Hne.
  { apply (keys_not_empty _ CURRENT_KEYS "PVvolt"); [|done].
    unfold CURRENT_KEYS. set_solver. }
  exists d. split; [done|]. split; [done|].
  cbv [log_realtime_data try_exceptL bindL on_tracer].
  cbn [tracer ifclient clock ticks].
  rewrite readCurrent_snapshot, (snapshot_ok _ _ _ ws d) by done.
  rewrite bool_decide_eq_false_2 by done.
  by rewrite flatten_reading.
Qed.

Lemma log_realtime_data_stores_the_reading_witness :
  length [1850; 420; 7770; 0; 1320; 580; 7656; 0; 0; 0; 0; 0;
          1318; 150; 1977; 0; 2500; 2700; 2700; 8600] = 20%nat /\
  Forall word [1850; 420; 7770; 0; 1320; 580; 7656; 0; 0; 0; 0; 0;
               1318; 150; 1977; 0; 2500; 2700; 2700; 8600] /\
  exists d,
    current_of_regs [1850; 420; 7770; 0; 1320; 580; 7656; 0; 0; 0; 0; 0;
                     1318; 150; 1977; 0; 2500; 2700; 2700; 8600] = Ok d /\
    dom d = CURRENT_KEYS /\
    log_realtime_data (fun _ => None) "solar_realtime"
      {| tracer :=
           {| replies := [Words [1850; 420; 7770; 0; 1320; 580; 7656; 0; 0;
                                 0; 0; 0; 1318; 150; 1977; 0; 2500; 2700;
                                 2700; 8600]];
              sent := [] |};
         ifclient := {| answers := [Stored]; stored := [] |};
         clock := Z.of_nat; ticks := 7 |}
    = (Ok true,
       {| tracer := {| replies := [];
                       sent := [] ++ [ReadRegisters 0x3100 20 4] |};
          ifclient :=
            {| answers := [];
               stored := [] ++ [[ {| measurement := "solar_realtime";
                                     time := Z.of_nat 7;
                                     fields := fields_of_reading d;
                                     tags := None |} ]] |};
          clock := Z.of_nat; ticks := 8 |}).
Proof.
  assert (Forall word [1850; 420; 7770; 0; 1320; 580; 7656; 0; 0; 0; 0; 0;
                       1318; 150; 1977; 0; 2500; 2700; 2700; 8600]) as Hw
    by (repeat (apply Forall_cons_2; [unfold word; lia|]); apply Forall_nil_2).
  split; [reflexivity|]. split; [exact Hw|].
  exact (log_realtime_data_stores_the_reading (fun _ => None)
           "solar_realtime"
           [1850; 420; 7770; 0; 1320; 580; 7656; 0; 0; 0; 0; 0;
            1318; 150; 1977; 0; 2500; 2700; 2700; 8600]
           [] [] [] [] Z.of_nat 7 eq_refl Hw).
Defined.

(** X15. Whatever the device and the database do, [log_realtime_data],
    [log_statistics] and [log_rated_data] raise nothing and answer with a
    bool. Each sends exactly one block read (at 0x3100, 0x3300 and
    0x3000). The answer is [True] when one point was added to what the
    database stores, named as asked, stamped with the clock and without
    tags; it is [False] when nothing was added. A call never stores more
    than one point, and never answers [True] without having stored it. *)
Theorem snapshot_loggers_outcome
  (float_of_str : string -> option spec_float)
  (measurement_name : string) (w : world) :
  (exists r w',
     log_realtime_data float_of_str measurement_name w = (Ok r, w') /\
     logged (ReadRegisters 0x3100 20 4) measurement_name w r w') /\
  (exists r w',
     log_statistics measurement_name w = (Ok r, w') /\
     logged (ReadRegisters 0x3300 20 4) measurement_name w r w') /\
  (exists r w',
     log_rated_data measurement_name w = (Ok r, w') /\
     logged (ReadRegisters 0x3000 5 4) measurement_name w r w').
Proof.
  split; [|split].
  - apply log_realtime_data_logged.
  - apply log_statistics_logged.
  - apply log_rated_data_logged.
Qed.

(** X16. A read that fails costs the database nothing. When the device
    does not answer with words (it is silent, or the transaction raises),
    each of the three snapshot loggers answers [False] without calling
    the database client and without reading the clock. *)
Theorem failed_read_leaves_database_alone
  (float_of_str : string -> option spec_float)
  (measurement_name : string) (w : world) :
  (forall ws, head (replies (tracer w)) <> Some (Words ws)) ->
  (exists w',
     log_realtime_data float_of_str measurement_name w = (Ok false, w') /\
     ifclient w' = ifclient w /\ ticks w' = ticks w) /\
  (exists w',
     log_statistics measurement_name w = (Ok false, w') /\
     ifclient w' = ifclient w /\ ticks w' = ticks w) /\
  (exists w',
     log_rated_data measurement_name w = (Ok false, w') /\
     ifclient w' = ifclient w /\ ticks w' = ticks w).
Proof.
  intros Hno. split; [|split].
  - apply (log_snapshot_no_reading readCurrent
             (fun d => flatten_nested_dict float_of_str
                         (items_of_reading d) "" "_") _ _
             {| replies := tail (replies (tracer w));
                sent := sent (tracer w) ++ [ReadRegisters 0x3100 20 4] |}).
    rewrite readCurrent_snapshot. by apply snapshot_no_words.
  - apply (log_snapshot_no_reading readStats fields_of_reading _ _
             {| replies := tail (replies (tracer w));
                sent := sent (tracer w) ++ [ReadRegisters 0x3300 20 4] |}).
    rewrite readStats_snapshot. by apply snapshot_no_words.
  - apply (log_snapshot_no_reading readRatedData fields_of_reading _ _
             {| replies := tail (replies (tracer w));
                sent := sent (tracer w) ++ [ReadRegisters 0x3000 5 4] |}).
    rewrite readRatedData_snapshot. by apply snapshot_no_words.
Qed.

Lemma failed_read_leaves_database_alone_witness :
  (forall ws,
     head (replies (tracer
       {| tracer := {| replies := [Fault IOError]; sent := [] |};
          ifclient := {| answers := [Stored]; stored := [] |};
          clock := Z.of_nat; ticks := 0 |})) <> Some (Words ws)) /\
  exists w',
    log_realtime_data (fun _ => None) "solar_realtime"
      {| tracer := {| replies := [Fault IOError]; sent := [] |};
         ifclient := {| answers := [Stored]; stored := [] |};
         clock := Z.of_nat; ticks := 0 |} = (Ok false, w') /\
    ifclient w' = {| answers := [Stored]; stored := [] |} /\
    ticks w' = 0%nat.
Proof.
  assert (forall ws,
     head (replies (tracer
       {| tracer := {| replies := [Fault IOError]; sent := [] |};
          ifclient := {| answers := [Stored]; stored := [] |};
          clock := Z.of_nat; ticks := 0 |})) <> Some (Words ws)) as Hno
    by (intros ws; discriminate).
  split; [exact Hno|].
  exact (proj1 (failed_read_leaves_database_alone (fun _ => None)
                  "solar_realtime" _ Hno)).
Defined.

(** X17. [log_all_data] raises nothing. Whatever the answers, it sends
    exactly three block reads, in the order real-time (0x3100),
    statistics (0x3300), rated data (0x3000): system status and settings
    cost no traffic and never count as a success, so at most three of the
    five categories are ever logged. It adds at most three batches of one
    point each to the database, and its answer is [True] exactly when it
    added at least one. *)
Theorem log_all_data_outcome (float_of_str : string -> option spec_float)
  (hash : string -> Z) (w : world) :
  exists r w' new,
    log_all_data float_of_str hash w = (Ok r, w') /\
    sent (tracer w')
    = sent (tracer w) ++ [ReadRegisters 0x3100 20 4;
                          ReadRegisters 0x3300 20 4;
                          ReadRegisters 0x3000 5 4] /\
    stored (ifclient w') = stored (ifclient w) ++ new /\
    (length new <= 3)%nat /\
    Forall (fun batch => length batch = 1%nat) new /\
    (r = true <-> new <> []).
Proof.
  destruct (log_realtime_data_logged float_of_str "solar_realtime" w)
    as (r1 & w1 & H1 & L1).
  destruct (log_statistics_logged "solar_statistics" w1)
    as (r2 & w2 & H2 & L2).
  destruct (log_rated_data_logged "solar_rated" w2)
    as (r3 & w3 & H3 & L3).
  apply logged_batches in L1 as (S1 & n1 & St1 & C1).
  apply logged_batches in L2 as (S2 & n2 & St2 & C2).
  apply logged_batches in L3 as (S3 & n3 & St3 & C3).
  exists (0 <? (let c := if r1 then 0 + 1 else 0 in
                let c := if r2 then c + 1 else c in
                let c := if r3 then c + 1 else c in c)), w3,
         (n1 ++ n2 ++ n3).
  split.
  { cbv [log_all_data bindL retL]. rewrite H1, H2.
    rewrite log_system_status_nothing, H3, log_settings_nothing.
    by destruct r1, r2, r3. }
  split; [rewrite S3, S2, S1; by rewrite <- !app_assoc|].
  split; [rewrite St3, St2, St1; by rewrite <- !app_assoc|].
  destruct C1 as [[-> ->]|[-> [p1 ->]]], C2 as [[-> ->]|[-> [p2 ->]]],
           C3 as [[-> ->]|[-> [p3 ->]]];
    cbn; (split; [lia|]);
    (split; [repeat (apply Forall_cons_2; [done|]); apply Forall_nil_2|]);
    done.
Qed.

(** X18. [run_single_log] answers [False] and does nothing at all (no
    request to the device, no call to the database, no clock reading) for
    every data type except "realtime", "statistics", "rated" and "all":
    for a name it does not know, and also for "settings" and "status",
    which the device does not serve. *)
Theorem run_single_log_unsupported
  (float_of_str : string -> option spec_float) (hash : string -> Z)
  (data_type : string) (w : world) :
  data_type ∉ ["realtime"; "statistics"; "rated"; "all"] ->
  run_single_log float_of_str hash data_type w = (Ok false, w).
Proof.
  intros Hno. unfold run_single_log.
  rewrite !(bool_decide_eq_false_2 (data_type = "realtime")) by set_solver.
  rewrite !(bool_decide_eq_false_2 (data_type = "statistics")) by set_solver.
  rewrite !(bool_decide_eq_false_2 (data_type = "rated")) by set_solver.
  rewrite !(bool_decide_eq_false_2 (data_type = "all")) by set_solver.
  repeat case_bool_decide;
    [apply log_settings_nothing|apply log_system_status_nothing|done].
Qed.

Lemma run_single_log_unsupported_witness :
  ("settings" ∉ ["realtime"; "statistics"; "rated"; "all"]) /\
  run_single_log (fun _ => None) (fun _ => 0) "settings"
    {| tracer := {| replies := [Ack]; sent := [] |};
       ifclient := {| answers := [Stored]; stored := [] |};
       clock := Z.of_nat; ticks := 0 |}
  = (Ok false,
     {| tracer := {| replies := [Ack]; sent := [] |};
        ifclient := {| answers := [Stored]; stored := [] |};
        clock := Z.of_nat; ticks := 0 |}).
Proof.
  assert ("settings" ∉ ["realtime"; "statistics"; "rated"; "all"]) as Hno
    by (apply (bool_decide_unpack _); vm_compute; exact I).
  split; [exact Hno|].
  exact (run_single_log_unsupported (fun _ => None) (fun _ => 0) "settings"
           _ Hno).
Defined.
